(** * Workspace-Buddy: the preset store and the preset switch

    A shallow embedding of [PresetHandler] (src/dev_prototype.py, lines
    21-101) and the properties of it that the specification states.

    The Python object, the file system and the console are threaded through
    a small state-and-exception monad [Py].  What [json.load] can return is
    the type [json]; a Python [dict] is an insertion-ordered association
    list whose keys are strings. *)

From Stdlib Require Import ZArith Ascii String List Bool.
From Stdlib Require Import Floats.PrimFloat.
From stdpp Require Import gmap strings list fin_maps.

Set Warnings "-register-all,-notation-overridden".

Local Open Scope string_scope.
Local Open Scope list_scope.

(* ===================================================================== *)
(** ** Values read from and written to the presets file *)
(* ===================================================================== *)

(** The values [json.load] produces: [None], [bool], [int], [float],
    [str], [list] and [dict] (string keys, insertion order kept). *)
Inductive json : Type :=
| JNull
| JBool (b : bool)
| JInt (z : Z)
| JFloat (f : float)
| JStr (s : string)
| JArr (l : list json)
| JObj (kvs : list (string * json)).

(** A Python [dict] with string keys, in insertion order.  A [dict] holds
    no key twice; [keys_unique] below says so of a list, and assignment and
    deletion keep it ([dict_set_unique], [dict_del_unique]). *)
Abbreviation dict := (list (string * json)).

(** Python truthiness, as tested by [if] and by [and]. *)
Definition truthy (v : json) : bool :=
  match v with
  | JNull => false
  | JBool b => b
  | JInt z => negb (Z.eqb z 0)
  | JFloat f => negb (PrimFloat.eqb f 0%float)
  | JStr s => negb (String.eqb s "")
  | JArr l => match l with [] => false | _ :: _ => true end
  | JObj kvs => match kvs with [] => false | _ :: _ => true end
  end.

(** Truthiness of an attribute that holds [None] or a [str]. *)
Definition truthy_name (o : option string) : bool :=
  match o with
  | None => false
  | Some s => negb (String.eqb s "")
  end.

(** What an f-string interpolates for such an attribute. *)
Definition format_name (o : option string) : string :=
  match o with
  | None => "None"
  | Some s => s
  end.

(* ===================================================================== *)
(** ** Dictionaries *)
(* ===================================================================== *)

(** [d.get(k)] *)
Fixpoint dict_get {V : Type} (k : string) (d : list (string * V)) : option V :=
  match d with
  | [] => None
  | (k', v) :: d' => if String.eqb k k' then Some v else dict_get k d'
  end.

(** [k in d] *)
Definition dict_mem {V : Type} (k : string) (d : list (string * V)) : bool :=
  match dict_get k d with
  | Some _ => true
  | None => false
  end.

(** [d[k] = v]: an existing key keeps its position and takes the new
    value, a new key goes last. *)
Fixpoint dict_set {V : Type} (k : string) (v : V) (d : list (string * V))
  : list (string * V) :=
  match d with
  | [] => [(k, v)]
  | (k', v') :: d' =>
      if String.eqb k k' then (k, v) :: d' else (k', v') :: dict_set k v d'
  end.

(** [del d[k]] (the caller has checked [k in d]). *)
Fixpoint dict_del {V : Type} (k : string) (d : list (string * V))
  : list (string * V) :=
  match d with
  | [] => []
  | (k', v') :: d' =>
      if String.eqb k k' then dict_del k d' else (k', v') :: dict_del k d'
  end.

(** [list(d.keys())] *)
Definition dict_keys {V : Type} (d : list (string * V)) : list string :=
  map fst d.

(* ===================================================================== *)
(** ** The machine: object, file system, console *)
(* ===================================================================== *)

(** The exceptions the modelled code can raise. *)
Inductive exn : Type :=
| KeyError (k : string)
| TypeError
| AttributeError
| OSError
| JSONDecodeError.

Inductive result (A : Type) : Type :=
| Ret (a : A)
| Raise (e : exn).
Arguments Ret {A} a.
Arguments Raise {A} e.

(** One printed line of [switch_to_preset]; the constructor is the fixed
    text of the line and the argument is what the f-string interpolates. *)
Inductive line : Type :=
| Closing (previous : string)  (* "🔄 Closing apps from previous preset: {..}" *)
| Switching (name : string)    (* "🚀 Switching to preset: {..}" *)
| Opening (joined : string)    (* "📱 Opening apps: {..}" *)
| Description (v : json).      (* "💡 Description: {..}" *)

(** What is at a path that refuses to be opened for writing: nothing, in
    a directory where no file can be created; something that cannot be
    read either (a directory, a file without permissions); a read-only
    file with text that [json.load] rejects; a read-only file that parses
    to [d]. *)
Inductive protected : Type :=
| Nothing
| Unreadable
| Unparsable
| Parses (d : dict).

(** What is at a path.  [Doc d] is a file whose text is a JSON object that
    parses to [d]; [json.dump] followed by [json.load] is the identity on
    such values.  [Garbage] is text that [json.load] rejects.  Both can be
    read and written.  [NoRead] is a file that can be written and cannot
    be opened for reading (a write-only file); the program never changes
    the mode of a file, so it stays unreadable when written.
    [WriteProtected] paths refuse every write.  [load_presets] is declared
    to return a [Dict], so documents whose top level is not an object are
    not represented. *)
Inductive file : Type :=
| NoRead
| Garbage
| Doc (d : dict)
| WriteProtected (what : protected).

(** Whether [os.path.exists] finds something at the path. *)
Definition exists_at (o : option file) : bool :=
  match o with
  | None | Some (WriteProtected Nothing) => false
  | Some _ => true
  end.

(** What [open(.., 'r')] and [json.load] give. *)
Definition read_at {A : Type} (ok : dict -> A) (fail : exn -> A)
    (o : option file) : A :=
  match o with
  | Some (Doc d) | Some (WriteProtected (Parses d)) => ok d
  | Some Garbage | Some (WriteProtected Unparsable) => fail JSONDecodeError
  | Some NoRead | Some (WriteProtected Unreadable)
  | Some (WriteProtected Nothing) | None => fail OSError
  end.

(** The store [load_presets] gets from the path, if it gets one. *)
Definition loadable (o : option file) : option dict :=
  read_at Some (fun _ => None) o.

(** What the path holds once [d] has been written there; [None] when
    [open(.., 'w')] raises. *)
Definition write_at (o : option file) (d : dict) : option file :=
  match o with
  | None | Some Garbage | Some (Doc _) => Some (Doc d)
  | Some NoRead => Some NoRead
  | Some (WriteProtected _) => None
  end.

(** The attributes of a [PresetHandler] object. *)
Record handler : Type := Handler {
  presets_file : string;
  presets : dict;
  current_preset : option string
}.

(** The object, the files by path, and the lines printed so far. *)
Record machine : Type := Machine {
  self : handler;
  fs : gmap string file;
  stdout : list line
}.

Definition with_self (h : handler) (m : machine) : machine :=
  {| self := h; fs := fs m; stdout := stdout m |}.

Definition with_fs (f : gmap string file) (m : machine) : machine :=
  {| self := self m; fs := f; stdout := stdout m |}.

Definition with_presets (d : dict) (h : handler) : handler :=
  {| presets_file := presets_file h; presets := d;
     current_preset := current_preset h |}.

Definition with_current (c : option string) (h : handler) : handler :=
  {| presets_file := presets_file h; presets := presets h;
     current_preset := c |}.

Definition with_file (p : string) (h : handler) : handler :=
  {| presets_file := p; presets := presets h;
     current_preset := current_preset h |}.

(** *** The monad *)

Definition Py (A : Type) : Type := machine -> result A * machine.

Definition ret {A : Type} (a : A) : Py A := fun m => (Ret a, m).

Definition raise {A : Type} (e : exn) : Py A := fun m => (Raise e, m).

Definition bind {A B : Type} (c : Py A) (k : A -> Py B) : Py B :=
  fun m =>
    match c m with
    | (Ret a, m') => k a m'
    | (Raise e, m') => (Raise e, m')
    end.

Notation "x <- c1 ;; c2" := (bind c1 (fun x => c2))
  (at level 20, c1 at level 99, c2 at level 200, right associativity).
Notation "c1 ;; c2" := (bind c1 (fun _ => c2))
  (at level 100, c2 at level 200, right associativity).

(** [try: c  except: pass]: a bare [except] swallows every exception; the
    effects [c] had before raising stay. *)
Definition try_pass {A : Type} (c : Py A) : Py (option A) :=
  fun m =>
    match c m with
    | (Ret a, m') => (Ret (Some a), m')
    | (Raise _, m') => (Ret None, m')
    end.

(** Reading and assigning attributes of [self]. *)
Definition attr {A : Type} (f : handler -> A) : Py A :=
  fun m => (Ret (f (self m)), m).

Definition assign (f : handler -> handler) : Py unit :=
  fun m => (Ret tt, with_self (f (self m)) m).

(** [print(..)] *)
Definition print (l : line) : Py unit :=
  fun m => (Ret tt, {| self := self m; fs := fs m; stdout := stdout m ++ [l] |}).

(** [os.path.exists(p)] *)
Definition path_exists (p : string) : Py bool :=
  fun m => (Ret (exists_at (fs m !! p)), m).

(** [with open(p, 'r') as f: json.load(f)] *)
Definition read_json (p : string) : Py dict :=
  fun m =>
    read_at (fun d => (Ret d, m)) (fun e => (Raise e, m)) (fs m !! p).

(** [with open(p, 'w') as f: json.dump(d, f, indent=2)]: the file is
    replaced as a whole, or [open] raises and the disk is as before. *)
Definition write_json (p : string) (d : dict) : Py unit :=
  fun m =>
    match write_at (fs m !! p) d with
    | Some f => (Ret tt, with_fs (<[p := f]> (fs m)) m)
    | None => (Raise OSError, m)
    end.

(** *** Operations of Python values *)

(** [v[k]] for a string [k]: only a [dict] can be indexed by a string. *)
Definition subscript (v : json) (k : string) : Py json :=
  match v with
  | JObj kvs =>
      match dict_get k kvs with
      | Some x => ret x
      | None => raise (KeyError k)
      end
  | _ => raise TypeError
  end.

(** [v.get(k, default)]: only a [dict] has the method. *)
Definition method_get (v : json) (k : string) (default : json) : Py json :=
  match v with
  | JObj kvs =>
      match dict_get k kvs with
      | Some x => ret x
      | None => ret default
      end
  | _ => raise AttributeError
  end.

(** The elements of a list when all of them are [str]. *)
Fixpoint all_str (l : list json) : option (list string) :=
  match l with
  | [] => Some []
  | JStr s :: l' =>
      match all_str l' with
      | Some ss => Some (s :: ss)
      | None => None
      end
  | _ :: _ => None
  end.

(** The characters of a string, each as a string. *)
Fixpoint chars (s : string) : list string :=
  match s with
  | EmptyString => []
  | String c s' => String c EmptyString :: chars s'
  end.

(** [', '.join(v)]: [v] is iterated (a list gives its elements, a string
    its characters, a dict its keys) and every element must be a [str]. *)
Definition join (v : json) : Py string :=
  match v with
  | JArr l =>
      match all_str l with
      | Some ss => ret (String.concat ", " ss)
      | None => raise TypeError
      end
  | JStr s => ret (String.concat ", " (chars s))
  | JObj kvs => ret (String.concat ", " (dict_keys kvs))
  | _ => raise TypeError
  end.

(* ===================================================================== *)
(** ** class PresetHandler *)
(* ===================================================================== *)

(** The record [add_preset] and the default table build:
    [{"description": .., "apps": [..], "close_previous": ..}]. *)
Definition preset_record (description : string) (apps : list string)
    (close_previous : bool) : json :=
  JObj [("description", JStr description);
        ("apps", JArr (map JStr apps));
        ("close_previous", JBool close_previous)].

(** The literal of [load_presets], lines 37-58. *)
Definition default_presets : dict :=
  [("Work",
    preset_record "Productivity and development workspace"
      ["Safari"; "Xcode"; "Terminal"; "Slack"; "Notes"] true);
   ("School",
    preset_record "Educational and learning workspace"
      ["Safari"; "Pages"; "Keynote"; "Numbers"; "Mail"] true);
   ("Gaming",
    preset_record "Gaming and entertainment workspace"
      ["Steam"; "Discord"; "Spotify"; "Safari"] false);
   ("Relax",
    preset_record "Relaxation and social media workspace"
      ["Safari"; "Messages"; "Photos"; "Music"; "TV"] false)].

(** [save_presets(self, presets)] *)
Definition save_presets (d : dict) : Py unit :=
  f <- attr presets_file ;;
  write_json f d.

(** [load_presets(self)] *)
Definition load_presets : Py dict :=
  f <- attr presets_file ;;
  present <- path_exists f ;;
  loaded <- (if present then try_pass (read_json f) else ret None) ;;
  match loaded with
  | Some d => ret d
  | None =>
      save_presets default_presets ;;
      ret default_presets
  end.

(** [__init__(self)] *)
Definition init : Py unit :=
  assign (with_file "presets.json") ;;
  d <- load_presets ;;
  assign (with_presets d) ;;
  assign (with_current None).

(** [switch_to_preset(self, preset_name)] *)
Definition switch_to_preset (preset_name : string) : Py bool :=
  ps <- attr presets ;;
  if negb (dict_mem preset_name ps) then ret false
  else
    preset <- subscript (JObj ps) preset_name ;;
    cur <- attr current_preset ;;
    close <- (if truthy_name cur
              then flag <- method_get preset "close_previous" (JBool true) ;;
                   ret (truthy flag)
              else ret false) ;;
    (if close then print (Closing (format_name cur)) else ret tt) ;;
    print (Switching preset_name) ;;
    apps <- subscript preset "apps" ;;
    joined <- join apps ;;
    print (Opening joined) ;;
    description <- subscript preset "description" ;;
    print (Description description) ;;
    assign (with_current (Some preset_name)) ;;
    ret true.

(** [add_preset(self, name, description, apps, close_previous)] *)
Definition add_preset (name description : string) (apps : list string)
    (close_previous : bool) : Py unit :=
  ps <- attr presets ;;
  assign (with_presets
            (dict_set name (preset_record description apps close_previous) ps)) ;;
  ps' <- attr presets ;;
  save_presets ps'.

(** [delete_preset(self, name)] *)
Definition delete_preset (name : string) : Py bool :=
  ps <- attr presets ;;
  if dict_mem name ps then
    assign (with_presets (dict_del name ps)) ;;
    ps' <- attr presets ;;
    save_presets ps' ;;
    ret true
  else ret false.

(** *** Running the program *)

(** The object before [__init__] has assigned its attributes. *)
Definition blank : handler :=
  {| presets_file := ""; presets := []; current_preset := None |}.

(** Process start: [PresetHandler()] over the files [files], nothing
    printed yet. *)
Definition start (files : gmap string file) : result unit * machine :=
  init {| self := blank; fs := files; stdout := [] |}.

(** The calls that read or change the store. *)
Inductive store_call : Type :=
| Load
| Add (name description : string) (apps : list string) (close_previous : bool)
| Delete (name : string).

(** Every public call, and a restart of the process over the same files. *)
Inductive call : Type :=
| Store (c : store_call)
| Switch (preset_name : string)
| Restart.

(** The state a call leaves behind, whatever it returned or raised.  When
    [__init__] raises, Python has no object to call; the model goes on
    with the object as [__init__] left it, its store empty, so what is
    shown of every reachable state covers more states than the program
    has. *)
Definition exec_store (c : store_call) (m : machine) : machine :=
  match c with
  | Load => snd (load_presets m)
  | Add name description apps close_previous =>
      snd (add_preset name description apps close_previous m)
  | Delete name => snd (delete_preset name m)
  end.

Definition exec (c : call) (m : machine) : machine :=
  match c with
  | Store c => exec_store c m
  | Switch preset_name => snd (switch_to_preset preset_name m)
  | Restart => snd (init (with_self blank m))
  end.


Definition execs (cs : list call) (m : machine) : machine :=
  fold_left (fun m c => exec c m) cs m.

(** The lines printed between two states of the console. *)
Definition emitted (m m' : machine) : list line :=
  drop (length (stdout m)) (stdout m').

(** Whether a line is the "closing apps from previous preset" line. *)
Definition is_closing (l : line) : bool :=
  match l with
  | Closing _ => true
  | _ => false
  end.

(* ===================================================================== *)
(** ** Strings of the add dialog *)
(* ===================================================================== *)

(** A string is a sequence of characters with codes below 256.  These are
    the ones [str.isspace] holds of: tab to carriage return, the four
    separators 28-31, the space, and the two Latin-1 spaces. *)
Definition isspace (c : ascii) : bool :=
  let n := nat_of_ascii c in
  (Nat.leb 9 n && Nat.leb n 13) || (Nat.leb 28 n && Nat.leb n 32) ||
  Nat.eqb n 133 || Nat.eqb n 160.

(** [s.lstrip()] *)
Fixpoint lstrip (s : string) : string :=
  match s with
  | EmptyString => EmptyString
  | String c s' => if isspace c then lstrip s' else s
  end.

(** [s.rstrip()] *)
Fixpoint rstrip (s : string) : string :=
  match s with
  | EmptyString => EmptyString
  | String c s' =>
      match rstrip s' with
      | EmptyString => if isspace c then EmptyString else String c EmptyString
      | r => String c r
      end
  end.

(** [s.strip()]: whitespace is removed at both ends. *)
Definition strip (s : string) : string := lstrip (rstrip s).

(** [s.split(sep)] for a separator of one character: every occurrence
    splits, and empty pieces are kept. *)
Fixpoint split (sep : ascii) (s : string) : list string :=
  match s with
  | EmptyString => [EmptyString]
  | String c s' =>
      if Ascii.eqb c sep then EmptyString :: split sep s'
      else match split sep s' with
           | piece :: pieces => String c piece :: pieces
           | [] => [String c EmptyString]
           end
  end.

(** [[app.strip() for app in apps_text.split(",") if app.strip()]] *)
Definition parse_apps (apps_text : string) : list string :=
  map strip
    (List.filter (fun app => negb (String.eqb (strip app) ""))
       (split ","%char apps_text)).

(* ===================================================================== *)
(** ** class PresetHandlerGUI *)
(* ===================================================================== *)

(** What [update_info_display] puts in the text widget: the values its
    f-strings interpolate, the apps one per bullet line. *)
Record info : Type := Info {
  shown_name : string;
  shown_description : json;
  shown_apps : list json;
  shown_close : bool                 (* "Yes" or "No" *)
}.

(** The message boxes, one constructor for each call in the source. *)
Inductive box : Type :=
| SelectFirst          (* showwarning: "Please select a preset first!" *)
| Switched (name : string)   (* showinfo: "Switched to {..} preset!.." *)
| SwitchFailed         (* showerror: "Failed to switch preset!" *)
| FillAllFields        (* showwarning: "Please fill in all fields!" *)
| Added (name : string)      (* showinfo: "Preset '{..}' added successfully!" *)
| AddFailed (e : exn). (* showerror: "Failed to add preset: {..}" *)

(** The widgets that carry state. *)
Record gui : Type := Gui {
  preset_var : string;               (* the combobox's [StringVar] *)
  combo_values : list string;        (* the combobox's list of values *)
  info_text : option info;           (* [None]: nothing inserted yet *)
  status_var : string;
  dialog_open : bool;                (* the "Add New Preset" window *)
  boxes : list box                   (* message boxes shown so far *)
}.

(** The window together with the handler it owns and the world. *)
Record app : Type := App {
  ui : gui;
  core : machine
}.

(** [for app in v]: a list gives its elements, a string its characters, a
    dict its keys; nothing else can be iterated. *)
Definition iterate (v : json) : Py (list json) :=
  match v with
  | JArr l => ret l
  | JStr s => ret (map JStr (chars s))
  | JObj kvs => ret (map JStr (dict_keys kvs))
  | _ => raise TypeError
  end.

Module PresetHandlerGUI.

Definition Ui (A : Type) : Type := app -> result A * app.

Definition ui_ret {A : Type} (a : A) : Ui A := fun s => (Ret a, s).

Definition ui_bind {A B : Type} (c : Ui A) (k : A -> Ui B) : Ui B :=
  fun s =>
    match c s with
    | (Ret a, s') => k a s'
    | (Raise e, s') => (Raise e, s')
    end.

#[local] Notation "x <- c1 ;; c2" := (ui_bind c1 (fun x => c2))
  (at level 20, c1 at level 99, c2 at level 200, right associativity).
#[local] Notation "c1 ;; c2" := (ui_bind c1 (fun _ => c2))
  (at level 100, c2 at level 200, right associativity).

(** [try: c  except Exception as e: h(e)]: every exception of the model
    is an [Exception]. *)
Definition try_except {A : Type} (c : Ui A) (h : exn -> Ui A) : Ui A :=
  fun s =>
    match c s with
    | (Ret a, s') => (Ret a, s')
    | (Raise e, s') => h e s'
    end.

(** A call into [self.preset_handler], or an operation of Python values. *)
Definition handler_call {A : Type} (c : Py A) : Ui A :=
  fun s =>
    match c (core s) with
    | (r, m') => (r, {| ui := ui s; core := m' |})
    end.

Definition widget {A : Type} (f : gui -> A) : Ui A :=
  fun s => (Ret (f (ui s)), s).

Definition configure (f : gui -> gui) : Ui unit :=
  fun s => (Ret tt, {| ui := f (ui s); core := core s |}).

(** [self.preset_var.set(..)] *)
Definition set_preset_var (name : string) (g : gui) : gui :=
  {| preset_var := name; combo_values := combo_values g;
     info_text := info_text g; status_var := status_var g;
     dialog_open := dialog_open g; boxes := boxes g |}.

(** [self.info_text.delete(1.0, tk.END); self.info_text.insert(1.0, ..)] *)
Definition set_info_text (i : info) (g : gui) : gui :=
  {| preset_var := preset_var g; combo_values := combo_values g;
     info_text := Some i; status_var := status_var g;
     dialog_open := dialog_open g; boxes := boxes g |}.

(** [self.status_var.set(..)] *)
Definition set_status_var (text : string) (g : gui) : gui :=
  {| preset_var := preset_var g; combo_values := combo_values g;
     info_text := info_text g; status_var := text;
     dialog_open := dialog_open g; boxes := boxes g |}.

(** [tk.Toplevel(self.root)] and [dialog.destroy()] *)
Definition set_dialog_open (b : bool) (g : gui) : gui :=
  {| preset_var := preset_var g; combo_values := combo_values g;
     info_text := info_text g; status_var := status_var g;
     dialog_open := b; boxes := boxes g |}.

(** [messagebox.show..(..)] *)
Definition show (b : box) (g : gui) : gui :=
  {| preset_var := preset_var g; combo_values := combo_values g;
     info_text := info_text g; status_var := status_var g;
     dialog_open := dialog_open g; boxes := boxes g ++ [b] |}.

(** [update_info_display(self)] *)
Definition update_info_display : Ui unit :=
  preset_name <- widget preset_var ;;
  ps <- handler_call (attr presets) ;;
  if String.eqb preset_name "" || negb (dict_mem preset_name ps) then ui_ret tt
  else
    preset <- handler_call (subscript (JObj ps) preset_name) ;;
    description <- handler_call (subscript preset "description") ;;
    apps <- handler_call (subscript preset "apps") ;;
    items <- handler_call (iterate apps) ;;
    flag <- handler_call (subscript preset "close_previous") ;;
    configure (set_info_text
                 {| shown_name := preset_name;
                    shown_description := description;
                    shown_apps := items;
                    shown_close := truthy flag |}).

(** [on_preset_selected(self, event)] *)
Definition on_preset_selected : Ui unit := update_info_display.

(** [switch_preset(self)] *)
Definition switch_preset : Ui unit :=
  preset_name <- widget preset_var ;;
  if String.eqb preset_name "" then configure (show SelectFirst)
  else
    switched <- handler_call (switch_to_preset preset_name) ;;
    if switched then
      configure (set_status_var
                   ("Switched to " ++ preset_name ++ " preset successfully!")%string) ;;
      configure (show (Switched preset_name))
    else
      configure (set_status_var "Failed to switch preset") ;;
      configure (show SwitchFailed).

(** [show_add_preset_dialog(self)]: the window opens; its entries are the
    arguments of [add_preset] below. *)
Definition show_add_preset_dialog : Ui unit :=
  configure (set_dialog_open true).

(** The [add_preset] closure of the dialog, run by its "Add Preset"
    button on the texts of the three entries and the check box.  In its
    body [add_preset] is the method of the handler. *)
Definition add_preset (name_text desc_text apps_entry_text : string)
    (close_var : bool) : Ui unit :=
  let name := strip name_text in
  let description := strip desc_text in
  let apps_text := strip apps_entry_text in
  if String.eqb name "" || String.eqb description "" || String.eqb apps_text ""
  then configure (show FillAllFields)
  else
    let apps := parse_apps apps_text in
    try_except
      (handler_call (add_preset name description apps close_var) ;;
       configure (set_preset_var name) ;;
       update_info_display ;;
       configure (set_dialog_open false) ;;
       configure (set_status_var ("Added new preset: " ++ name)%string) ;;
       configure (show (Added name)))
      (fun e => configure (show (AddFailed e))).

End PresetHandlerGUI.

(* ===================================================================== *)
(** ** The statements of the specification that are settled below *)
(* ===================================================================== *)

(** The target's [close_previous] flag is present and is [True]. *)
Definition flag_true (m : machine) (name : string) : Prop :=
  exists rec,
    dict_get name (presets (self m)) = Some (JObj rec) /\
    dict_get "close_previous" rec = Some (JBool true).

(** The target's [close_previous] flag is absent or truthy: what
    [preset.get("close_previous", True)] tests. *)
Definition flag_on (m : machine) (name : string) : Prop :=
  exists rec,
    dict_get name (presets (self m)) = Some (JObj rec) /\
    match dict_get "close_previous" rec with
    | Some v => truthy v = true
    | None => True
    end.

(** The two halves of the body of [switch_to_preset] once the record is
    fetched (lines 76-77 and lines 79-84), named for the proofs;
    [switch_to_preset_halves] below shows the body is their sequence. *)
Definition close_step (cur : option string) (preset : json) : Py unit :=
  close <- (if truthy_name cur
            then flag <- method_get preset "close_previous" (JBool true) ;;
                 ret (truthy flag)
            else ret false) ;;
  if close then print (Closing (format_name cur)) else ret tt.

Definition announce (preset_name : string) (preset : json) : Py bool :=
  print (Switching preset_name) ;;
  apps <- subscript preset "apps" ;;
  joined <- join apps ;;
  print (Opening joined) ;;
  description <- subscript preset "description" ;;
  print (Description description) ;;
  assign (with_current (Some preset_name)) ;;
  ret true.

(** The optional first line of a switch: the closing line for the preset
    being left, when the pointer holds a non-empty name and the target's
    flag is absent or truthy. *)
Definition closing_lines (current : option string) (rec : dict) : list line :=
  match current with
  | Some previous =>
      if negb (String.eqb previous "")
      then match dict_get "close_previous" rec with
           | Some v => if truthy v then [Closing previous] else []
           | None => [Closing previous]
           end
      else []
  | None => []
  end.

(** Section 4.2 as written: a successful switch prints the closing line
    for [p] exactly when the pointer is set to [p] and the target's flag
    is true. *)
Definition closes_iff_set_and_flag (m : machine) (name : string) : Prop :=
  forall m' p,
    switch_to_preset name m = (Ret true, m') ->
    (In (Closing p) (emitted m m') <->
     current_preset (self m) = Some p /\ flag_true m name).

(** A record without a [close_previous] key counts as flagged whenever the
    pointer is set. *)
Definition absent_flag_closes (m : machine) (name : string) : Prop :=
  forall rec previous,
    dict_get name (presets (self m)) = Some (JObj rec) ->
    dict_get "close_previous" rec = None ->
    current_preset (self m) = Some previous ->
    In (Closing previous) (emitted m (snd (switch_to_preset name m))).

(** Section 4.1 as written: when nothing can be loaded from the presets
    file, [load_presets] returns the default table without raising. *)
Definition falls_back_silently (m : machine) : Prop :=
  loadable (fs m !! presets_file (self m)) = None ->
  exists m', load_presets m = (Ret default_presets, m').

(** Section 8 as written: [add_preset] returns, and a load of the file
    then yields a store with the named entry. *)
Definition add_then_load_yields (m : machine) (name description : string)
    (apps : list string) (close_previous : bool) : Prop :=
  exists m1 store m2,
    add_preset name description apps close_previous m = (Ret tt, m1) /\
    load_presets m1 = (Ret store, m2) /\
    dict_get name store =
      Some (preset_record description apps close_previous).

(** Section 4.1 as written: [delete_preset] of a key of the store
    returns [True]. *)
Definition delete_reports_success (m : machine) (name : string) : Prop :=
  In name (dict_keys (presets (self m))) ->
  exists m1, delete_preset name m = (Ret true, m1).

(** The invariant of section 3: every key is non-empty and unique. *)
Definition keys_nonempty (d : dict) : Prop :=
  Forall (fun k => k <> "") (dict_keys d).

Definition keys_unique (d : dict) : Prop := NoDup (dict_keys d).

(** Nothing can be loaded from the presets file: it is absent, cannot be
    read or does not parse.  A process that starts over it starts from the
    default table. *)
Definition defaulted (files : gmap string file) : Prop :=
  forall d, loadable (files !! "presets.json") <> Some d.

(** The path accepts a write. *)
Definition writable (o : option file) : Prop :=
  forall d, write_at o d <> None.

(** The path accepts a write and what is written there can be read back:
    there is no file yet, or a file that can be read and written. *)
Definition usable (o : option file) : Prop :=
  forall d, write_at o d = Some (Doc d).

(** A call that does not add a preset under the empty name. *)
Definition named (c : call) : Prop :=
  match c with
  | Store (Add name _ _ _) => name <> ""
  | _ => True
  end.

(** Section 3 as written, over the states reachable from the defaults. *)
Definition store_keys_nonempty_unique : Prop :=
  forall files cs,
    defaulted files ->
    let d := presets (self (execs cs (snd (start files)))) in
    keys_nonempty d /\ keys_unique d.

(** Every record of the store is one [add_preset] or the default table
    could have built. *)
Definition records_built (d : dict) : Prop :=
  Forall (fun kv => exists description apps close_previous,
            snd kv = preset_record description apps close_previous) d.

(** What holds of every state the program reaches from the defaults, for
    a property [P] of stores: the object reads "presets.json", its store
    has the property, and so has whatever a load would get from the
    file. *)
Definition store_inv (P : dict -> Prop) (m : machine) : Prop :=
  presets_file (self m) = "presets.json" /\
  P (presets (self m)) /\
  forall d, loadable (fs m !! "presets.json") = Some d -> P d.

(** A call keeps the property [P] of stores. *)
Definition keeps (P : dict -> Prop) (c : call) : Prop :=
  match c with
  | Store (Add name description apps close_previous) =>
      forall d, P d ->
        P (dict_set name (preset_record description apps close_previous) d)
  | Store (Delete name) => forall d, P d -> P (dict_del name d)
  | _ => True
  end.

(** The presets file of the object is "presets.json" and holds the store
    of the object. *)
Definition mirrored (m : machine) : Prop :=
  presets_file (self m) = "presets.json" /\
  fs m !! "presets.json" = Some (Doc (presets (self m))).

(** The target's [close_previous] is absent or truthy in the record. *)
Definition flag_on_in (rec : dict) : Prop :=
  match dict_get "close_previous" rec with
  | Some v => truthy v = true
  | None => True
  end.


(** *** States used as examples *)

(** The first run: no file yet. *)
Definition first_run : machine := snd (start ∅).

(** A preset under the empty name is added and switched to. *)
Definition on_empty_name : machine :=
  execs [Store (Add "" "unnamed" ["Notes"] false); Switch ""] first_run.

(** A directory stands where the presets file should be. *)
Definition on_directory : machine :=
  {| self := with_file "presets.json" blank;
     fs := {["presets.json" := WriteProtected Unreadable]};
     stdout := [] |}.

(** The presets file holds the default table and is read-only. *)
Definition on_read_only : machine :=
  snd (start {["presets.json" := WriteProtected (Parses default_presets)]}).

(** The presets file is write-only. *)
Definition on_write_only : machine :=
  snd (start {["presets.json" := NoRead]}).

(** A presets file edited by hand: the record of ["B"] has no
    [close_previous] key. *)
Definition hand_edited : dict :=
  [("A", preset_record "first" ["Safari"] false);
   ("B", JObj [("description", JStr "second");
               ("apps", JArr [JStr "Mail"; JStr "Notes"])])].

Definition on_A : machine :=
  execs [Switch "A"] (snd (start {["presets.json" := Doc hand_edited]})).

(** A store with a record that has no ["apps"] key, after a switch to
    "Work". *)
Definition without_apps : machine :=
  execs [Switch "Work"]
    (snd (start {["presets.json" :=
                    Doc (default_presets ++
                         [("X", JObj [("description", JStr "d")])])]})).

(** The same file, with the empty name as its first key, switched to. *)
Definition on_empty_hand_edited : machine :=
  execs [Switch ""]
    (snd (start {["presets.json" :=
                    Doc (("", preset_record "unnamed" [] true) :: hand_edited)]})).

(* ===================================================================== *)
(** ** Lemmas on dictionaries *)
(* ===================================================================== *)

Section Dict.
Context {V : Type}.
Implicit Types (d : list (string * V)) (k : string) (v : V).

Lemma dict_mem_true k d : dict_mem k d = true <-> is_Some (dict_get k d).
Proof.
  unfold dict_mem. destruct (dict_get k d); split; intros H; eauto.
  - discriminate.
  - destruct H; discriminate.
Qed.

Lemma dict_mem_false k d : dict_mem k d = false <-> dict_get k d = None.
Proof.
  unfold dict_mem. destruct (dict_get k d); split; congruence.
Qed.

Lemma dict_mem_keys k d : dict_mem k d = true <-> In k (dict_keys d).
Proof.
  unfold dict_mem, dict_keys.
  induction d as [|[k' v'] d IH]; simpl.
  - split; [discriminate | tauto].
  - destruct (String.eqb_spec k k') as [->|Hne].
    + split; auto.
    + rewrite IH. split; [auto | intros [E|H]; congruence].
Qed.

Lemma dict_get_set_eq k v d : dict_get k (dict_set k v d) = Some v.
Proof.
  induction d as [|[k' v'] d IH]; simpl.
  - now rewrite String.eqb_refl.
  - destruct (String.eqb_spec k k') as [->|Hne]; simpl.
    + now rewrite String.eqb_refl.
    + now destruct (String.eqb_spec k k').
Qed.

Lemma dict_get_set_ne k k' v d :
  k <> k' -> dict_get k' (dict_set k v d) = dict_get k' d.
Proof.
  intros Hne. induction d as [|[k0 v0] d IH]; simpl.
  - destruct (String.eqb_spec k' k); congruence.
  - destruct (String.eqb_spec k k0) as [->|Hk]; simpl.
    + destruct (String.eqb_spec k' k0); congruence.
    + now rewrite IH.
Qed.

Lemma dict_get_del_eq k d : dict_get k (dict_del k d) = None.
Proof.
  induction d as [|[k' v'] d IH]; simpl; [reflexivity|].
  destruct (String.eqb_spec k k') as [->|Hne]; simpl; [assumption|].
  now destruct (String.eqb_spec k k').
Qed.

Lemma dict_get_del_ne k k' d :
  k <> k' -> dict_get k' (dict_del k d) = dict_get k' d.
Proof.
  intros Hne. induction d as [|[k0 v0] d IH]; simpl; [reflexivity|].
  destruct (String.eqb_spec k k0) as [->|Hk]; simpl.
  - rewrite IH. destruct (String.eqb_spec k' k0); congruence.
  - now rewrite IH.
Qed.

Lemma dict_del_absent k d : dict_get k d = None -> dict_del k d = d.
Proof.
  induction d as [|[k' v'] d IH]; simpl; [reflexivity|].
  destruct (String.eqb_spec k k'); [discriminate|].
  intros H. now rewrite IH.
Qed.

(** Assignment keeps the order of the keys and puts a new key last. *)
Lemma dict_keys_set k v d :
  dict_keys (dict_set k v d) =
  if dict_mem k d then dict_keys d else dict_keys d ++ [k].
Proof.
  unfold dict_mem, dict_keys.
  induction d as [|[k' v'] d IH]; simpl; [reflexivity|].
  destruct (String.eqb_spec k k') as [->|Hne]; simpl; [reflexivity|].
  rewrite IH. now destruct (dict_get k d).
Qed.

Lemma dict_keys_del_incl k k' d :
  In k' (dict_keys (dict_del k d)) -> In k' (dict_keys d).
Proof.
  unfold dict_keys.
  induction d as [|[k0 v0] d IH]; simpl; [tauto|].
  destruct (String.eqb k k0); simpl; tauto.
Qed.

Lemma dict_set_unique k v d :
  NoDup (dict_keys d) -> NoDup (dict_keys (dict_set k v d)).
Proof.
  intros Hd. rewrite dict_keys_set.
  destruct (dict_mem k d) eqn:Hm; [assumption|].
  apply NoDup_app. split; [assumption|]. split.
  - intros x Hx Hin. apply list_elem_of_In in Hx.
    apply list_elem_of_In in Hin. destruct Hin as [<-|[]].
    apply dict_mem_keys in Hx. congruence.
  - apply NoDup_singleton.
Qed.

Lemma dict_del_unique k d :
  NoDup (dict_keys d) -> NoDup (dict_keys (dict_del k d)).
Proof.
  unfold dict_keys.
  induction d as [|[k0 v0] d IH]; simpl; [auto|].
  rewrite NoDup_cons. intros [Hnotin Hd].
  destruct (String.eqb k k0); simpl; [auto|].
  apply NoDup_cons. split; [|auto].
  intros Hin. apply Hnotin. apply list_elem_of_In.
  apply (dict_keys_del_incl k). now apply list_elem_of_In.
Qed.

Lemma dict_set_keys_all (P : string -> Prop) k v d :
  P k -> Forall P (dict_keys d) -> Forall P (dict_keys (dict_set k v d)).
Proof.
  intros Hk Hd. rewrite dict_keys_set.
  destruct (dict_mem k d); [assumption|].
  apply Forall_app. split; [assumption|]. now constructor.
Qed.

Lemma dict_del_keys_all (P : string -> Prop) k d :
  Forall P (dict_keys d) -> Forall P (dict_keys (dict_del k d)).
Proof.
  rewrite !Forall_forall. intros Hd x Hx.
  apply Hd. apply list_elem_of_In. apply (dict_keys_del_incl k).
  now apply list_elem_of_In.
Qed.
Lemma dict_get_all (P : string * V -> Prop) k v d :
  Forall P d -> dict_get k d = Some v -> exists k', P (k', v).
Proof.
  induction d as [|[k0 v0] d IH]; simpl; [discriminate|].
  intros Hd. apply Forall_cons in Hd as [H0 Hd].
  destruct (String.eqb k k0); [|auto].
  intros E. injection E as <-. eauto.
Qed.

Lemma dict_set_all (P : string * V -> Prop) k v d :
  (forall k', P (k', v)) -> Forall P d -> Forall P (dict_set k v d).
Proof.
  intros Hv. induction d as [|[k0 v0] d IH]; simpl; intros Hd.
  - constructor; auto.
  - apply Forall_cons in Hd as [H0 Hd].
    destruct (String.eqb k k0); constructor; auto.
Qed.

Lemma dict_del_all (P : string * V -> Prop) k d :
  Forall P d -> Forall P (dict_del k d).
Proof.
  induction d as [|[k0 v0] d IH]; simpl; intros Hd; [constructor|].
  apply Forall_cons in Hd as [H0 Hd].
  destruct (String.eqb k k0); [|constructor]; auto.
Qed.
End Dict.

(* ===================================================================== *)
(** ** Lemmas on the machine *)
(* ===================================================================== *)

Lemma emitted_app m m' ls : stdout m' = stdout m ++ ls -> emitted m m' = ls.
Proof. unfold emitted. intros ->. apply drop_app_length. Qed.

Lemma emitted_same m m' : stdout m' = stdout m -> emitted m m' = [].
Proof. intros H. apply emitted_app. now rewrite app_nil_r. Qed.

Lemma all_str_map ss : all_str (map JStr ss) = Some ss.
Proof. induction ss as [|s ss IH]; simpl; [reflexivity|]. now rewrite IH. Qed.

Lemma machine_eta m : {| self := self m; fs := fs m; stdout := stdout m |} = m.
Proof. now destruct m. Qed.

(** Unfolding of the monad and of the primitive effects. *)
Ltac py_unfold :=
  unfold bind, ret, raise, attr, assign, print, try_pass, path_exists,
    read_json, write_json, subscript, method_get, join,
    with_self, with_fs, with_presets, with_current, with_file.

(** *** switch_to_preset *)

Lemma switch_unknown m name :
  dict_get name (presets (self m)) = None ->
  switch_to_preset name m = (Ret false, m).
Proof.
  intros H. unfold switch_to_preset, dict_mem. py_unfold. now rewrite H.
Qed.

(** The outcome of a switch to a record that has the keys the body reads. *)
Lemma switch_known m name rec apps description :
  dict_get name (presets (self m)) = Some (JObj rec) ->
  dict_get "apps" rec = Some (JArr (map JStr apps)) ->
  dict_get "description" rec = Some description ->
  switch_to_preset name m =
  (Ret true,
   {| self := with_current (Some name) (self m);
      fs := fs m;
      stdout := stdout m ++ closing_lines (current_preset (self m)) rec ++
                [Switching name; Opening (String.concat ", " apps);
                 Description description] |}).
Proof.
  intros Hrec Happs Hdesc.
  unfold switch_to_preset, dict_mem, closing_lines. py_unfold. simpl.
  rewrite Hrec. simpl.
  destruct (current_preset (self m)) as [previous|] eqn:Hcur; simpl.
  - destruct (String.eqb previous ""); simpl.
    + rewrite Happs. simpl. rewrite all_str_map, Hdesc. simpl.
      now rewrite <- !app_assoc.
    + destruct (dict_get "close_previous" rec) as [v|]; simpl.
      * destruct (truthy v); simpl; rewrite Happs; simpl;
          rewrite all_str_map, Hdesc; simpl; now rewrite <- !app_assoc.
      * rewrite Happs. simpl. rewrite all_str_map, Hdesc. simpl.
        now rewrite <- !app_assoc.
  - rewrite Happs. simpl. rewrite all_str_map, Hdesc. simpl.
    now rewrite <- !app_assoc.
Qed.

(** A switch to a record that is not a JSON object raises: from
    [preset.get] when the pointer is truthy, and from [preset['apps']],
    after the switching line, when it is not. *)
Lemma switch_not_object m name v :
  dict_get name (presets (self m)) = Some v ->
  (forall rec, v <> JObj rec) ->
  switch_to_preset name m =
  if truthy_name (current_preset (self m))
  then (Raise AttributeError, m)
  else (Raise TypeError,
        {| self := self m; fs := fs m;
           stdout := stdout m ++ [Switching name] |}).
Proof.
  intros Hv Hobj.
  unfold switch_to_preset, dict_mem. py_unfold. simpl. rewrite Hv. simpl.
  destruct (current_preset (self m)) as [previous|]; simpl.
  - destruct (String.eqb previous ""); simpl;
      destruct v; try reflexivity; now destruct (Hobj kvs).
  - destruct v; try reflexivity; now destruct (Hobj kvs).
Qed.

(** Sequencing is associative. *)
Lemma bind_assoc {A B C : Type} (c : Py A) (f : A -> Py B) (g : B -> Py C) m :
  (y <- (x <- c ;; f x) ;; g y) m = (x <- c ;; y <- f x ;; g y) m.
Proof. unfold bind. destruct (c m) as [[a|e] m']; reflexivity. Qed.

(** The body of [switch_to_preset] as the sequence of its two halves. *)
Lemma switch_to_preset_halves name m :
  switch_to_preset name m =
  match dict_get name (presets (self m)) with
  | None => (Ret false, m)
  | Some preset =>
      (close_step (current_preset (self m)) preset ;; announce name preset) m
  end.
Proof.
  unfold switch_to_preset, dict_mem. unfold bind at 1, attr at 1. cbv beta iota.
  destruct (dict_get name (presets (self m))) as [preset|] eqn:E; [|reflexivity].
  cbv beta iota. simpl negb. cbv iota.
  unfold bind at 1, subscript at 1. rewrite E. unfold ret at 1. cbv beta iota.
  unfold bind at 1, attr at 1. cbv beta iota.
  unfold close_step. rewrite bind_assoc. reflexivity.
Qed.

Lemma close_step_object cur rec m :
  close_step cur (JObj rec) m =
  (Ret tt, {| self := self m; fs := fs m;
              stdout := stdout m ++ closing_lines cur rec |}).
Proof.
  unfold close_step, closing_lines. py_unfold.
  destruct cur as [previous|]; simpl.
  - destruct (String.eqb previous ""); simpl.
    + now rewrite app_nil_r, machine_eta.
    + destruct (dict_get "close_previous" rec) as [v|]; simpl; [|reflexivity].
      destruct (truthy v); simpl; [reflexivity|].
      now rewrite app_nil_r, machine_eta.
  - now rewrite app_nil_r, machine_eta.
Qed.

(** A falsy pointer ([None] or the empty name) skips the closing step
    whatever the record is. *)
Lemma close_step_falsy cur preset m :
  truthy_name cur = false -> close_step cur preset m = (Ret tt, m).
Proof. unfold close_step. intros ->. reflexivity. Qed.

(** The first half prints at most the closing line and touches nothing
    else; it raises only from [preset.get], before printing. *)
Lemma close_step_frame cur preset m :
  (exists ls, close_step cur preset m =
              (Ret tt, {| self := self m; fs := fs m; stdout := ls |})) \/
  close_step cur preset m = (Raise AttributeError, m).
Proof.
  destruct (truthy_name cur) eqn:Hcur.
  - destruct preset as [| | | | |l|rec];
      try (right; unfold close_step; now rewrite Hcur).
    left. rewrite close_step_object. eauto.
  - left. rewrite close_step_falsy by assumption.
    exists (stdout m). now rewrite machine_eta.
Qed.

(** The second half prints the switching line and then no closing line,
    and leaves the files alone, whether it completes or raises. *)
Lemma announce_lines name preset m :
  exists rest,
    stdout (snd (announce name preset m)) = stdout m ++ Switching name :: rest /\
    existsb is_closing rest = false /\
    fs (snd (announce name preset m)) = fs m /\
    presets (self (snd (announce name preset m))) = presets (self m) /\
    presets_file (self (snd (announce name preset m))) = presets_file (self m).
Proof.
  unfold announce. py_unfold.
  destruct preset as [| | | | |l|rec]; simpl;
    try (exists []; repeat split; reflexivity).
  destruct (dict_get "apps" rec) as [x|]; simpl;
    [|exists []; repeat split; reflexivity].
  destruct x as [| | | |s|l|kvs]; simpl;
    try (exists []; repeat split; reflexivity);
    try (destruct (all_str l); simpl;
         [|exists []; repeat split; reflexivity]);
    (destruct (dict_get "description" rec) as [x0|]; simpl;
     eexists; rewrite <- ?app_assoc; simpl; repeat split; reflexivity).
Qed.

(** What a switch to a JSON object prints, whether or not it completes:
    the optional closing line, the switching line, and then lines that
    are not closing lines. *)
Lemma switch_object m name rec :
  dict_get name (presets (self m)) = Some (JObj rec) ->
  exists rest,
    stdout (snd (switch_to_preset name m)) =
    stdout m ++ closing_lines (current_preset (self m)) rec ++
    Switching name :: rest /\
    existsb is_closing rest = false.
Proof.
  intros Hrec. rewrite switch_to_preset_halves, Hrec.
  unfold bind at 1. rewrite close_step_object.
  destruct (announce_lines name (JObj rec)
              {| self := self m; fs := fs m;
                 stdout := stdout m ++ closing_lines (current_preset (self m)) rec |})
    as (rest & Hout & Hrest & _).
  exists rest. split; [|assumption].
  destruct (announce name (JObj rec) _) as [[b|e] m'] eqn:E; simpl in *;
    rewrite Hout; now rewrite <- app_assoc.
Qed.

Lemma not_in_closing rest p :
  existsb is_closing rest = false -> ~ In (Closing p) rest.
Proof.
  intros H Hin.
  assert (existsb is_closing rest = true) as E
    by (apply existsb_exists; exists (Closing p); auto).
  congruence.
Qed.

Lemma in_closing_lines cur rec p :
  In (Closing p) (closing_lines cur rec) <->
  cur = Some p /\ p <> "" /\
  match dict_get "close_previous" rec with
  | Some v => truthy v = true
  | None => True
  end.
Proof.
  unfold closing_lines. destruct cur as [previous|]; simpl.
  - destruct (String.eqb_spec previous "") as [->|Hne]; simpl.
    + split; [tauto|]. intros (E & Hp & _). congruence.
    + destruct (dict_get "close_previous" rec) as [v|]; simpl.
      * destruct (truthy v); simpl.
        -- split.
           ++ intros [E|[]]. injection E as <-. auto.
           ++ intros (E & _). injection E as <-. auto.
        -- split; [tauto|]. intros (_ & _ & E). discriminate.
      * split.
        -- intros [E|[]]. injection E as <-. auto.
        -- intros (E & _). injection E as <-. auto.
  - split; [tauto|]. intros (E & _). discriminate.
Qed.

(** A completed switch went to a JSON object, printed the optional closing
    line first, and moved the pointer. *)
Lemma switch_success m name m' :
  switch_to_preset name m = (Ret true, m') ->
  exists rec rest,
    dict_get name (presets (self m)) = Some (JObj rec) /\
    emitted m m' =
      closing_lines (current_preset (self m)) rec ++ Switching name :: rest /\
    existsb is_closing rest = false /\
    current_preset (self m') = Some name.
Proof.
  intros Hrun.
  destruct (dict_get name (presets (self m))) as [v|] eqn:Hv.
  - assert (exists rec, v = JObj rec) as [rec ->].
    { destruct v; eauto;
        (rewrite (switch_not_object _ _ _ Hv) in Hrun by discriminate;
         destruct (truthy_name _); discriminate). }
    destruct (switch_object _ _ _ Hv) as (rest & Hout & Hrest).
    exists rec, rest. rewrite Hrun in Hout. simpl in Hout.
    repeat split; auto using emitted_app.
    rewrite switch_to_preset_halves, Hv in Hrun.
    unfold bind at 1 in Hrun. rewrite close_step_object in Hrun.
    revert Hrun. unfold announce. py_unfold. simpl.
    destruct (dict_get "apps" rec) as [x|]; simpl; [|discriminate].
    destruct x as [| | | |s|l|kvs]; simpl; try discriminate;
      try (destruct (all_str l); simpl; [|discriminate]);
      (destruct (dict_get "description" rec); simpl; [|discriminate];
       intros E; injection E as <-; reflexivity).
  - rewrite (switch_unknown _ _ Hv) in Hrun. discriminate.
Qed.

(** A switch changes neither the store nor the files, whatever happens. *)
Lemma switch_frame name m :
  fs (snd (switch_to_preset name m)) = fs m /\
  presets (self (snd (switch_to_preset name m))) = presets (self m) /\
  presets_file (self (snd (switch_to_preset name m))) = presets_file (self m).
Proof.
  rewrite switch_to_preset_halves.
  destruct (dict_get name (presets (self m))) as [preset|]; [|auto].
  unfold bind.
  destruct (close_step_frame (current_preset (self m)) preset m)
    as [[ls ->] | ->]; simpl; [|auto].
  destruct (announce_lines name preset
              {| self := self m; fs := fs m; stdout := ls |})
    as (rest & _ & _ & Hfs & Hps & Hfile).
  destruct (announce name preset _) as [[b|e] m'']; simpl in *; auto.
Qed.

(** A falsy pointer ([None] or the empty name) never gives a closing line. *)
Lemma switch_falsy_pointer m name p :
  truthy_name (current_preset (self m)) = false ->
  ~ In (Closing p) (emitted m (snd (switch_to_preset name m))).
Proof.
  intros Hcur. rewrite switch_to_preset_halves.
  destruct (dict_get name (presets (self m))) as [preset|]; simpl.
  - unfold bind at 1. rewrite close_step_falsy by assumption.
    destruct (announce_lines name preset m) as (rest & Hout & Hrest & _).
    assert (emitted m (snd (announce name preset m)) = Switching name :: rest)
      as -> by now apply emitted_app.
    intros [E|Hin]; [discriminate|]. now apply (not_in_closing rest p).
  - rewrite emitted_same by reflexivity. tauto.
Qed.

(** *** load_presets, add_preset, delete_preset *)

Lemma load_presets_run m :
  load_presets m =
  match loadable (fs m !! presets_file (self m)) with
  | Some d => (Ret d, m)
  | None =>
      match write_at (fs m !! presets_file (self m)) default_presets with
      | Some f =>
          (Ret default_presets,
           with_fs (<[presets_file (self m) := f]> (fs m)) m)
      | None => (Raise OSError, m)
      end
  end.
Proof.
  unfold load_presets, save_presets. py_unfold. cbv beta.
  destruct (fs m !! presets_file (self m)) as [[| |d|[| | |d]]|] eqn:E;
    cbv beta iota delta [exists_at read_at loadable write_at];
    rewrite ?E; reflexivity.
Qed.

Lemma add_preset_run name description apps close_previous m :
  add_preset name description apps close_previous m =
  let d := dict_set name (preset_record description apps close_previous)
             (presets (self m)) in
  match write_at (fs m !! presets_file (self m)) d with
  | Some f =>
      (Ret tt,
       {| self := with_presets d (self m);
          fs := <[presets_file (self m) := f]> (fs m);
          stdout := stdout m |})
  | None =>
      (Raise OSError,
       {| self := with_presets d (self m); fs := fs m; stdout := stdout m |})
  end.
Proof.
  unfold add_preset, save_presets. py_unfold. simpl.
  destruct (write_at _ _); reflexivity.
Qed.

Lemma delete_preset_run name m :
  delete_preset name m =
  if dict_mem name (presets (self m))
  then
    let d := dict_del name (presets (self m)) in
    match write_at (fs m !! presets_file (self m)) d with
    | Some f =>
        (Ret true,
         {| self := with_presets d (self m);
            fs := <[presets_file (self m) := f]> (fs m);
            stdout := stdout m |})
    | None =>
        (Raise OSError,
         {| self := with_presets d (self m); fs := fs m; stdout := stdout m |})
    end
  else (Ret false, m).
Proof.
  unfold delete_preset, save_presets. py_unfold. simpl.
  destruct (dict_mem name (presets (self m))); [|reflexivity].
  simpl. destruct (write_at _ _); reflexivity.
Qed.

(** The outcomes of a write, by what the path held. *)
Lemma write_at_cases o d :
  (write_at o d = Some (Doc d) /\ usable o) \/
  (write_at o d = Some NoRead /\ o = Some NoRead) \/
  (write_at o d = None /\ exists w, o = Some (WriteProtected w)).
Proof.
  destruct o as [[| |d0|w]|]; simpl; eauto;
    left; (split; [reflexivity|intros d'; reflexivity]).
Qed.

Lemma usable_cases o :
  usable o <-> o = None \/ o = Some Garbage \/ exists d, o = Some (Doc d).
Proof.
  unfold usable. split.
  - intros H. specialize (H []).
    destruct o as [[| |d0|w]|]; simpl in H; eauto; discriminate.
  - intros [-> | [-> | [d0 ->]]] d; reflexivity.
Qed.

Lemma writable_cases o : writable o <-> forall w, o <> Some (WriteProtected w).
Proof.
  unfold writable. split.
  - intros H w ->. now apply (H []).
  - intros H d. destruct o as [[| |d0|w]|]; simpl; try discriminate.
    now destruct (H w).
Qed.

(** What a load gets from a path after a write there. *)
Lemma loadable_written o d f :
  write_at o d = Some f -> loadable (Some f) = Some d \/ f = NoRead.
Proof.
  destruct o as [[| |d0|w]|]; simpl; intros E; try discriminate;
    injection E as <-; auto.
Qed.

Lemma init_run m :
  init m =
  let m0 := with_self (with_file "presets.json" (self m)) m in
  match load_presets m0 with
  | (Ret d, m1) =>
      (Ret tt, with_self (with_current None (with_presets d (self m1))) m1)
  | (Raise e, m1) => (Raise e, m1)
  end.
Proof.
  unfold init. py_unfold. simpl.
  destruct (load_presets _) as [[d|e] m1]; reflexivity.
Qed.

(** *** The program on the examples of section 8 *)

(** The first run creates the file with the default table. *)
Example first_run_creates_file :
  fst (start ∅) = Ret tt /\
  presets (self first_run) = default_presets /\
  fs first_run !! "presets.json" = Some (Doc default_presets) /\
  current_preset (self first_run) = None.
Proof. vm_compute. auto. Qed.

(** A file with the single preset ["X"] loads as it is and is not
    rewritten. *)
Example load_single_preset :
  let x := [("X", preset_record "d" ["A"] false)] in
  let files : gmap string file := {["presets.json" := Doc x]} in
  presets (self (snd (start files))) = x /\
  fs (snd (start files)) = files.
Proof. vm_compute. auto. Qed.

(** From "Gaming" to "Work", whose flag is true: the closing line names
    "Gaming" and comes first. *)
Example gaming_then_work :
  stdout (execs [Switch "Gaming"; Switch "Work"] first_run) =
  [Switching "Gaming";
   Opening "Steam, Discord, Spotify, Safari";
   Description (JStr "Gaming and entertainment workspace");
   Closing "Gaming";
   Switching "Work";
   Opening "Safari, Xcode, Terminal, Slack, Notes";
   Description (JStr "Productivity and development workspace")].
Proof. vm_compute. reflexivity. Qed.

(** From "Work", whose flag is true, to "Gaming", whose flag is false: no
    closing line. *)
Example work_then_gaming :
  emitted (execs [Switch "Work"] first_run)
          (execs [Switch "Work"; Switch "Gaming"] first_run) =
  [Switching "Gaming";
   Opening "Steam, Discord, Spotify, Safari";
   Description (JStr "Gaming and entertainment workspace")].
Proof. vm_compute. reflexivity. Qed.

(** A record without [apps]: the switching line is printed, then
    [preset['apps']] raises and the pointer stays as it was. *)
Example switch_without_apps :
  let files : gmap string file :=
    {["presets.json" := Doc [("X", JObj [("description", JStr "d")])]]} in
  let m := snd (start files) in
  fst (switch_to_preset "X" m) = Raise (KeyError "apps") /\
  emitted m (snd (switch_to_preset "X" m)) = [Switching "X"] /\
  current_preset (self (snd (switch_to_preset "X" m))) = None.
Proof. vm_compute. auto. Qed.

(* ===================================================================== *)
(** ** The switch *)
(* ===================================================================== *)

(** C1, as written, fails in two ways.  After a switch to the preset named
    by the empty string, the pointer is set and "Work" carries a true flag,
    yet a switch to "Work" prints no closing line.  And a switch to a
    record that has no flag at all prints the closing line although no flag
    is true. *)
Lemma closes_iff_set_and_flag_fails :
  ~ closes_iff_set_and_flag on_empty_name "Work" /\
  ~ closes_iff_set_and_flag on_A "B".
Proof.
  split; intros H.
  - specialize (H (snd (switch_to_preset "Work" on_empty_name)) "").
    assert (In (Closing "")
              (emitted on_empty_name
                 (snd (switch_to_preset "Work" on_empty_name)))) as Hin.
    { apply H; [vm_compute; reflexivity|].
      split; [reflexivity|]. eexists. split; vm_compute; reflexivity. }
    vm_compute in Hin. intuition discriminate.
  - specialize (H (snd (switch_to_preset "B" on_A)) "A").
    assert (flag_true on_A "B") as (rec & Hrec & Hflag).
    { apply H; [vm_compute; reflexivity|]. vm_compute. auto. }
    vm_compute in Hrec. injection Hrec as <-. discriminate.
Qed.

(** C1 (amended): a completed switch prints the closing line for [p]
    exactly when the pointer holds the non-empty name [p] and the target's
    [close_previous] is absent or truthy; a target whose flag is [False]
    never gets a closing line, whatever preset is being left. *)
Theorem switch_closing_iff m name m' p :
  switch_to_preset name m = (Ret true, m') ->
  (In (Closing p) (emitted m m') <->
   current_preset (self m) = Some p /\ p <> "" /\ flag_on m name) /\
  ((exists rec,
      dict_get name (presets (self m)) = Some (JObj rec) /\
      dict_get "close_previous" rec = Some (JBool false)) ->
   ~ In (Closing p) (emitted m m')).
Proof.
  intros Hrun.
  destruct (switch_success _ _ _ Hrun) as (rec & rest & Hrec & Hout & Hrest & _).
  assert (In (Closing p) (emitted m m') <->
          In (Closing p) (closing_lines (current_preset (self m)) rec)) as Hin.
  { rewrite Hout, in_app_iff. simpl. split; [|auto].
    intros [H|[H|H]]; [assumption|discriminate|].
    now destruct (not_in_closing rest p). }
  rewrite Hin, in_closing_lines. unfold flag_on. split.
  - split.
    + intros (Hcur & Hp & Hflag). eauto.
    + intros (Hcur & Hp & rec' & Hrec' & Hflag).
      rewrite Hrec in Hrec'. injection Hrec' as <-. auto.
  - intros (rec' & Hrec' & Hfalse) (_ & _ & Hflag).
    rewrite Hrec in Hrec'. injection Hrec' as <-.
    rewrite Hfalse in Hflag. discriminate.
Qed.

Lemma switch_closing_iff_witness :
  let m := execs [Switch "Gaming"] first_run in
  In (Closing "Gaming") (emitted m (snd (switch_to_preset "Work" m))).
Proof.
  intros m.
  apply (switch_closing_iff m "Work" (snd (switch_to_preset "Work" m)) "Gaming").
  - vm_compute. reflexivity.
  - split; [reflexivity|]. split; [discriminate|].
    eexists. split; [vm_compute; reflexivity|]. reflexivity.
Defined.

(** C2: for a store that holds [preset_name] with a record carrying an
    [apps] list of strings and a [description], the switch prints, after the
    optional closing line, the switching line, the opening line with the
    apps joined in their stored order, and the description line; it then
    sets [current_preset] to [preset_name] and returns [True].  Nothing
    else changes. *)
Theorem switch_to_preset_announces m preset_name rec apps description :
  dict_get preset_name (presets (self m)) = Some (JObj rec) ->
  dict_get "apps" rec = Some (JArr (map JStr apps)) ->
  dict_get "description" rec = Some description ->
  exists m',
    switch_to_preset preset_name m = (Ret true, m') /\
    emitted m m' =
      closing_lines (current_preset (self m)) rec ++
      [Switching preset_name;
       Opening (String.concat ", " apps);
       Description description] /\
    current_preset (self m') = Some preset_name /\
    presets (self m') = presets (self m) /\
    fs m' = fs m.
Proof.
  intros Hrec Happs Hdesc.
  eexists. split; [apply (switch_known m preset_name rec apps description);
                   assumption|].
  split; [now apply emitted_app|]. auto.
Qed.

Lemma switch_to_preset_announces_witness :
  exists m',
    switch_to_preset "Work" first_run = (Ret true, m') /\
    emitted first_run m' =
      [Switching "Work";
       Opening "Safari, Xcode, Terminal, Slack, Notes";
       Description (JStr "Productivity and development workspace")] /\
    current_preset (self m') = Some "Work" /\
    presets (self m') = presets (self first_run) /\
    fs m' = fs first_run.
Proof.
  apply (switch_to_preset_announces first_run "Work"
           [("description", JStr "Productivity and development workspace");
            ("apps", JArr (map JStr ["Safari"; "Xcode"; "Terminal"; "Slack"; "Notes"]));
            ("close_previous", JBool true)]
           ["Safari"; "Xcode"; "Terminal"; "Slack"; "Notes"]
           (JStr "Productivity and development workspace"));
    reflexivity.
Defined.

(** C3: a switch to a name that is not a key of the store returns [False]
    without raising and leaves the whole machine as it was: store, pointer,
    files and console. *)
Theorem switch_to_unknown_preset m name :
  ~ In name (dict_keys (presets (self m))) ->
  switch_to_preset name m = (Ret false, m).
Proof.
  intros Hnotin. apply switch_unknown. apply dict_mem_false.
  destruct (dict_mem name (presets (self m))) eqn:E; [|reflexivity].
  destruct Hnotin. now apply dict_mem_keys.
Qed.

Lemma switch_to_unknown_preset_witness :
  switch_to_preset "Study" first_run = (Ret false, first_run).
Proof.
  apply (switch_to_unknown_preset first_run "Study").
  vm_compute. intuition discriminate.
Defined.

(** C9, as written, fails when the pointer is set to the empty name: the
    record of "B" has no [close_previous] key, the pointer is set, and the
    switch to "B" prints no closing line. *)
Lemma absent_flag_closes_fails : ~ absent_flag_closes on_empty_hand_edited "B".
Proof.
  intros H.
  specialize (H [("description", JStr "second");
                 ("apps", JArr [JStr "Mail"; JStr "Notes"])] ""
                eq_refl eq_refl eq_refl).
  vm_compute in H. intuition discriminate.
Qed.

(** C9 (amended): a record without a [close_previous] key is treated as if
    the flag were true: while the pointer holds a non-empty name, a switch
    to such a record starts by printing the closing line for that name. *)
Theorem absent_flag_closes_nonempty m name rec previous :
  dict_get name (presets (self m)) = Some (JObj rec) ->
  dict_get "close_previous" rec = None ->
  current_preset (self m) = Some previous ->
  previous <> "" ->
  exists rest,
    emitted m (snd (switch_to_preset name m)) =
    Closing previous :: Switching name :: rest.
Proof.
  intros Hrec Hflag Hcur Hne.
  destruct (switch_object _ _ _ Hrec) as (rest & Hout & _).
  exists rest. apply emitted_app. rewrite Hout.
  unfold closing_lines. rewrite Hcur, Hflag.
  now destruct (String.eqb_spec previous "").
Qed.

Lemma absent_flag_closes_nonempty_witness :
  exists rest,
    emitted on_A (snd (switch_to_preset "B" on_A)) =
    Closing "A" :: Switching "B" :: rest.
Proof.
  apply (absent_flag_closes_nonempty on_A "B"
           [("description", JStr "second");
            ("apps", JArr [JStr "Mail"; JStr "Notes"])] "A");
    [reflexivity | reflexivity | reflexivity | discriminate].
Defined.

(** [add_preset] takes the empty name like any other: the preset is in the
    store of the object when the call ends, whether or not the save went
    through, and it can be switched to. *)
Lemma add_preset_accepts_empty_name m description apps close_previous :
  let m1 := snd (add_preset "" description apps close_previous m) in
  dict_get "" (presets (self m1)) =
    Some (preset_record description apps close_previous) /\
  exists m2, switch_to_preset "" m1 = (Ret true, m2).
Proof.
  intros m1.
  assert (dict_get "" (presets (self m1)) =
          Some (preset_record description apps close_previous)) as Hrec.
  { subst m1. rewrite add_preset_run. cbv zeta.
    destruct (write_at _ _); simpl; apply dict_get_set_eq. }
  split; [assumption|]. eexists.
  apply (switch_known m1 ""
           [("description", JStr description); ("apps", JArr (map JStr apps));
            ("close_previous", JBool close_previous)]
           apps (JStr description));
    [exact Hrec|reflexivity..].
Qed.

(** C10: the test on the pointer is a truthiness test.  After a completed
    switch to the preset named by the empty string the pointer holds that
    name, and the next switch, to any preset at all, prints no closing
    line: the machine behaves as if no preset were current. *)
Theorem empty_name_pointer_is_unset m m1 name p :
  switch_to_preset "" m = (Ret true, m1) ->
  current_preset (self m1) = Some "" /\
  ~ In (Closing p) (emitted m1 (snd (switch_to_preset name m1))).
Proof.
  intros Hrun.
  destruct (switch_success _ _ _ Hrun) as (rec & rest & _ & _ & _ & Hcur).
  split; [assumption|].
  apply switch_falsy_pointer. now rewrite Hcur.
Qed.

Lemma empty_name_pointer_is_unset_witness :
  let m := execs [Store (Add "" "unnamed" ["Notes"] false)] first_run in
  flag_true on_empty_name "Work" /\
  current_preset (self on_empty_name) = Some "" /\
  ~ In (Closing "")
      (emitted on_empty_name (snd (switch_to_preset "Work" on_empty_name))).
Proof.
  intros m. split.
  - eexists. split; vm_compute; reflexivity.
  - apply (empty_name_pointer_is_unset m on_empty_name "Work" "").
    vm_compute. reflexivity.
Defined.

(* ===================================================================== *)
(** ** The store *)
(* ===================================================================== *)

(** C4, as written, fails when the defaults cannot be written: the save of
    line 60 is outside the [try] of lines 30-34, so with a directory in
    the place of the presets file the [OSError] of [open] leaves
    [load_presets]. *)
Lemma falls_back_silently_fails : ~ falls_back_silently on_directory.
Proof.
  intros H. destruct H as (m' & Hrun); [reflexivity|].
  vm_compute in Hrun. discriminate.
Qed.

(** C4 (amended): when the presets file is absent, cannot be read or does
    not parse, and the write of the defaults is accepted, [load_presets]
    returns the default table without raising and writes that table to
    the file, touching nothing else; the file then holds the table (a
    write-only file stays unreadable).  The table has the four keys
    "Work", "School", "Gaming", "Relax", in this order, each with the
    description, apps and flag of the source. *)
Theorem load_presets_falls_back m :
  loadable (fs m !! presets_file (self m)) = None ->
  writable (fs m !! presets_file (self m)) ->
  exists m',
    load_presets m = (Ret default_presets, m') /\
    (fs m !! presets_file (self m) <> Some NoRead ->
     fs m' !! presets_file (self m) = Some (Doc default_presets)) /\
    (fs m !! presets_file (self m) = Some NoRead ->
     fs m' !! presets_file (self m) = Some NoRead) /\
    (forall p, p <> presets_file (self m) -> fs m' !! p = fs m !! p) /\
    self m' = self m /\
    stdout m' = stdout m /\
    default_presets =
      [("Work",
        JObj [("description", JStr "Productivity and development workspace");
              ("apps", JArr [JStr "Safari"; JStr "Xcode"; JStr "Terminal";
                             JStr "Slack"; JStr "Notes"]);
              ("close_previous", JBool true)]);
       ("School",
        JObj [("description", JStr "Educational and learning workspace");
              ("apps", JArr [JStr "Safari"; JStr "Pages"; JStr "Keynote";
                             JStr "Numbers"; JStr "Mail"]);
              ("close_previous", JBool true)]);
       ("Gaming",
        JObj [("description", JStr "Gaming and entertainment workspace");
              ("apps", JArr [JStr "Steam"; JStr "Discord"; JStr "Spotify";
                             JStr "Safari"]);
              ("close_previous", JBool false)]);
       ("Relax",
        JObj [("description", JStr "Relaxation and social media workspace");
              ("apps", JArr [JStr "Safari"; JStr "Messages"; JStr "Photos";
                             JStr "Music"; JStr "TV"]);
              ("close_previous", JBool false)])].
Proof.
  intros Hload Hwrite. rewrite load_presets_run, Hload.
  destruct (write_at_cases (fs m !! presets_file (self m)) default_presets)
    as [[Hw Huse] | [[Hw Hnoread] | [Hw _]]]; rewrite Hw.
  - eexists. split; [reflexivity|]. unfold with_fs. simpl.
    split; [intros _; apply lookup_insert_eq|].
    split; [intros E; rewrite E in Hw; discriminate|].
    split; [intros p Hp; now apply lookup_insert_ne|auto].
  - eexists. split; [reflexivity|]. unfold with_fs. simpl.
    split; [intros Hne; now destruct Hne|].
    split; [intros _; apply lookup_insert_eq|].
    split; [intros p Hp; now apply lookup_insert_ne|auto].
  - now destruct (Hwrite default_presets).
Qed.

Lemma load_presets_falls_back_witness :
  let m := {| self := with_file "presets.json" blank;
              fs := {["presets.json" := Garbage; "notes.txt" := NoRead]};
              stdout := [] |} in
  exists m',
    load_presets m = (Ret default_presets, m') /\
    fs m' !! "presets.json" = Some (Doc default_presets) /\
    fs m' !! "notes.txt" = Some NoRead.
Proof.
  intros m.
  destruct (load_presets_falls_back m)
    as (m' & Hrun & Hfile & _ & Hother & _).
  - vm_compute. reflexivity.
  - intros d. vm_compute. discriminate.
  - exists m'. split; [assumption|]. split.
    + apply Hfile. vm_compute. discriminate.
    + rewrite (Hother "notes.txt") by discriminate. vm_compute. reflexivity.
Defined.

(** C5, as written, fails in two ways.  On a read-only presets file the
    save of line 93 raises, so [add_preset] does not return.  On a
    write-only file the save is accepted, but the load cannot read the
    file back, falls back to the defaults and the entry is not in the
    store it returns. *)
Lemma add_then_load_yields_fails :
  ~ add_then_load_yields on_read_only "Study" "Reading" ["Books"] true /\
  ~ add_then_load_yields on_write_only "Study" "Reading" ["Books"] true.
Proof.
  split; intros (m1 & store & m2 & Hadd & Hload & Hget).
  - vm_compute in Hadd. discriminate.
  - assert (m1 = snd (add_preset "Study" "Reading" ["Books"] true
                        on_write_only)) as -> by now rewrite Hadd.
    assert (store = default_presets) as ->.
    { assert (fst (load_presets
                     (snd (add_preset "Study" "Reading" ["Books"] true
                             on_write_only))) = Ret default_presets) as E
        by (vm_compute; reflexivity).
      rewrite Hload in E. simpl in E. now injection E. }
    vm_compute in Hget. discriminate.
Qed.

(** C5 (amended): when the presets file is absent or can be read and
    written, [add_preset] returns and a load of the persisted file, by
    this object or by any other object on that file, returns the store
    the object now holds: the named entry has exactly the given fields,
    with the apps in the given order, every other entry is as before, and
    the keys keep their order, a new name going last.  An existing name
    is overwritten in place. *)
Theorem add_preset_then_load m name description apps close_previous :
  usable (fs m !! presets_file (self m)) ->
  exists m1,
    add_preset name description apps close_previous m = (Ret tt, m1) /\
    fs m1 !! presets_file (self m) = Some (Doc (presets (self m1))) /\
    (forall h out,
       presets_file h = presets_file (self m) ->
       load_presets {| self := h; fs := fs m1; stdout := out |} =
       (Ret (presets (self m1)),
        {| self := h; fs := fs m1; stdout := out |})) /\
    dict_get name (presets (self m1)) =
      Some (JObj [("description", JStr description);
                  ("apps", JArr (map JStr apps));
                  ("close_previous", JBool close_previous)]) /\
    (forall k, k <> name ->
       dict_get k (presets (self m1)) = dict_get k (presets (self m))) /\
    dict_keys (presets (self m1)) =
      (if dict_mem name (presets (self m))
       then dict_keys (presets (self m))
       else dict_keys (presets (self m)) ++ [name]) /\
    current_preset (self m1) = current_preset (self m) /\
    stdout m1 = stdout m.
Proof.
  intros Huse. rewrite add_preset_run. cbv zeta. rewrite Huse.
  eexists. split; [reflexivity|]. simpl.
  split; [apply lookup_insert_eq|]. split.
  - intros h out Hfile. rewrite load_presets_run. simpl.
    now rewrite Hfile, lookup_insert_eq.
  - split; [apply dict_get_set_eq|].
    split; [intros k Hk; now apply dict_get_set_ne|].
    split; [apply dict_keys_set|auto].
Qed.

Lemma add_preset_then_load_witness :
  let m1 := snd (add_preset "Study" "Reading" ["Books"; "Notes"] true
                   first_run) in
  load_presets {| self := with_file "presets.json" blank;
                  fs := fs m1; stdout := [] |} =
  (Ret (default_presets ++
        [("Study", preset_record "Reading" ["Books"; "Notes"] true)]),
   {| self := with_file "presets.json" blank; fs := fs m1; stdout := [] |}).
Proof.
  intros m1.
  destruct (add_preset_then_load first_run "Study" "Reading"
              ["Books"; "Notes"] true)
    as (m1' & Hadd & _ & Hload & _).
  - intros d. vm_compute. reflexivity.
  - assert (m1 = m1') as -> by (subst m1; now rewrite Hadd).
    rewrite (Hload (with_file "presets.json" blank) []) by reflexivity.
    assert (presets (self m1') =
            default_presets ++
            [("Study", preset_record "Reading" ["Books"; "Notes"] true)])
      as -> by (injection Hadd as <-; vm_compute; reflexivity).
    reflexivity.
Defined.

(** C6, as written, fails when the save is refused: on a read-only
    presets file line 99 raises after line 98 has removed the entry, so
    [delete_preset] of a key of the store does not return [True]. *)
Lemma delete_reports_success_fails : ~ delete_reports_success on_read_only "Work".
Proof.
  intros H. destruct H as (m1 & Hrun); [vm_compute; auto|].
  vm_compute in Hrun. discriminate.
Qed.

(** C6 (amended): [delete_preset] of a key of the store, when the save is
    accepted, returns [True], removes the entry, leaves every other entry
    alone and writes the store to the file; a second call with the same
    name, like any call with a name that is not a key, returns [False]
    without raising and changes nothing. *)
Theorem delete_preset_reports m name :
  (In name (dict_keys (presets (self m))) ->
   writable (fs m !! presets_file (self m)) ->
   exists m1,
     delete_preset name m = (Ret true, m1) /\
     ~ In name (dict_keys (presets (self m1))) /\
     (forall k, k <> name ->
        dict_get k (presets (self m1)) = dict_get k (presets (self m))) /\
     (usable (fs m !! presets_file (self m)) ->
      fs m1 !! presets_file (self m) = Some (Doc (presets (self m1)))) /\
     (forall p, p <> presets_file (self m) -> fs m1 !! p = fs m !! p) /\
     delete_preset name m1 = (Ret false, m1)) /\
  (~ In name (dict_keys (presets (self m))) ->
   delete_preset name m = (Ret false, m)).
Proof.
  split.
  - intros Hname Hwrite. apply dict_mem_keys in Hname.
    rewrite delete_preset_run, Hname. cbv zeta.
    destruct (write_at (fs m !! presets_file (self m))
                (dict_del name (presets (self m)))) as [f|] eqn:Hw;
      [|now destruct (Hwrite (dict_del name (presets (self m))))].
    eexists. split; [reflexivity|].
    assert (dict_mem name (dict_del name (presets (self m))) = false) as Hgone
      by (apply dict_mem_false, dict_get_del_eq).
    simpl. split.
    + intros Hin. apply dict_mem_keys in Hin. congruence.
    + split; [intros k Hk; now apply dict_get_del_ne|].
      split.
      { intros Huse. rewrite Huse in Hw. injection Hw as <-.
        apply lookup_insert_eq. }
      split; [intros p Hp; now apply lookup_insert_ne|].
      rewrite delete_preset_run. simpl. now rewrite Hgone.
  - intros Hname. rewrite delete_preset_run.
    destruct (dict_mem name (presets (self m))) eqn:E; [|reflexivity].
    destruct Hname. now apply dict_mem_keys.
Qed.

Lemma delete_preset_reports_witness :
  let m1 := snd (delete_preset "Gaming" first_run) in
  fst (delete_preset "Gaming" first_run) = Ret true /\
  dict_keys (presets (self m1)) = ["Work"; "School"; "Relax"] /\
  delete_preset "Gaming" m1 = (Ret false, m1).
Proof.
  intros m1.
  destruct (delete_preset_reports first_run "Gaming") as [Hpresent _].
  destruct Hpresent as (m1' & Hrun & _ & _ & _ & _ & Hagain).
  - vm_compute. auto.
  - intros d. vm_compute. discriminate.
  - subst m1. rewrite Hrun. simpl. split; [reflexivity|].
    split; [|assumption].
    injection Hrun as <-. vm_compute. reflexivity.
Defined.

(* ===================================================================== *)
(** ** Reachable states *)
(* ===================================================================== *)

Lemma execs_cons c cs m : execs (c :: cs) m = execs cs (exec c m).
Proof. reflexivity. Qed.


Lemma default_presets_keys :
  dict_keys default_presets = ["Work"; "School"; "Gaming"; "Relax"].
Proof. reflexivity. Qed.

Lemma default_presets_unique : keys_unique default_presets.
Proof.
  unfold keys_unique. rewrite default_presets_keys.
  repeat (constructor;
          [intros Hin%list_elem_of_In; simpl in Hin; intuition discriminate|]).
  constructor.
Qed.

(** What a write leaves at the path is, for a load, the store written or
    nothing. *)
Lemma written_inv (P : dict -> Prop) o d f (files : gmap string file) p :
  P d -> write_at o d = Some f ->
  forall d', loadable (<[p := f]> files !! p) = Some d' -> P d'.
Proof.
  intros Hd Hw d'. rewrite lookup_insert_eq.
  destruct (loadable_written _ _ _ Hw) as [-> | ->];
    [intros E; injection E as <-; assumption | discriminate].
Qed.

(** A load on a state whose file, if it loads, has the property [P]:
    the store returned has the property and so has the file left. *)
Lemma load_presets_inv (P : dict -> Prop) m :
  P default_presets ->
  (forall d, loadable (fs m !! presets_file (self m)) = Some d -> P d) ->
  match load_presets m with
  | (Ret d, m1) =>
      P d /\ self m1 = self m /\ stdout m1 = stdout m /\
      forall d', loadable (fs m1 !! presets_file (self m)) = Some d' -> P d'
  | (Raise _, m1) => m1 = m
  end.
Proof.
  intros Hdef Hfs. rewrite load_presets_run.
  destruct (loadable (fs m !! presets_file (self m))) as [d|] eqn:Hload.
  - split; [now apply Hfs|]. split; [reflexivity|]. split; [reflexivity|].
    intros d' E. apply Hfs. congruence.
  - destruct (write_at (fs m !! presets_file (self m)) default_presets)
      as [f|] eqn:Hw; [|reflexivity].
    split; [assumption|]. split; [reflexivity|]. split; [reflexivity|].
    unfold with_fs. simpl. now apply (written_inv P _ _ _ _ _ Hdef Hw).
Qed.

(** The outcome of [__init__] on such a state. *)
Lemma init_inv (P : dict -> Prop) m :
  P [] -> P default_presets ->
  presets (self m) = [] ->
  (forall d, loadable (fs m !! "presets.json") = Some d -> P d) ->
  store_inv P (snd (init m)).
Proof.
  intros Hnil Hdef Hblank Hfs. rewrite init_run. cbv zeta.
  pose proof (load_presets_inv P
                (with_self (with_file "presets.json" (self m)) m) Hdef Hfs)
    as Hload.
  destruct (load_presets _) as [[d|e] m1].
  - destruct Hload as (Hd & Hself & _ & Hfs1).
    split; [simpl; now rewrite Hself|]. split; [assumption|].
    exact Hfs1.
  - subst m1. split; [reflexivity|]. split; [simpl; now rewrite Hblank|].
    exact Hfs.
Qed.

(** A process that finds nothing to load starts in the invariant. *)
Lemma start_defaulted (P : dict -> Prop) files :
  P [] -> P default_presets ->
  defaulted files ->
  store_inv P (snd (start files)).
Proof.
  intros Hnil Hdef Hfiles. unfold start.
  apply init_inv; [assumption..|reflexivity|].
  intros d E. now destruct (Hfiles d).
Qed.

Lemma exec_inv (P : dict -> Prop) c m :
  P [] -> P default_presets -> keeps P c ->
  store_inv P m -> store_inv P (exec c m).
Proof.
  intros Hnil Hdef Hc (Hfile & Hstore & Hfs).
  destruct c as [[|name d apps cp|name]|name|]; unfold exec, exec_store.
  - rewrite <- Hfile in Hfs.
    pose proof (load_presets_inv P m Hdef Hfs) as Hload.
    destruct (load_presets m) as [[d|e] m1]; simpl.
    + destruct Hload as (_ & Hself & _ & Hfs1).
      split; [now rewrite Hself|]. split; [now rewrite Hself|].
      now rewrite <- Hfile.
    + subst m1. split; [assumption|]. split; [assumption|].
      now rewrite <- Hfile.
  - rewrite add_preset_run. cbv zeta. simpl in Hc.
    destruct (write_at _ _) as [f|] eqn:Hw; simpl;
      (split; [assumption|]); (split; [now apply Hc|]); [|assumption].
    rewrite Hfile. now apply (written_inv P _ _ _ _ _ (Hc _ Hstore) Hw).
  - rewrite delete_preset_run. simpl in Hc.
    destruct (dict_mem name (presets (self m))); [|now repeat split].
    cbv zeta. destruct (write_at _ _) as [f|] eqn:Hw; simpl;
      (split; [assumption|]); (split; [now apply Hc|]); [|assumption].
    rewrite Hfile. now apply (written_inv P _ _ _ _ _ (Hc _ Hstore) Hw).
  - destruct (switch_frame name m) as (Hfs' & Hps & Hpf).
    unfold store_inv. now rewrite Hfs', Hps, Hpf.
  - apply init_inv; [assumption..|reflexivity|exact Hfs].
Qed.

Lemma execs_inv (P : dict -> Prop) cs m :
  P [] -> P default_presets -> Forall (keeps P) cs ->
  store_inv P m -> store_inv P (execs cs m).
Proof.
  intros Hnil Hdef. revert m.
  induction cs as [|c cs IH]; intros m Hcs Hinv; [assumption|].
  apply Forall_cons in Hcs as [Hc Hcs]. rewrite execs_cons.
  apply IH; [assumption|]. now apply exec_inv.
Qed.

Lemma keeps_unique c : keeps keys_unique c.
Proof.
  destruct c as [[|name d apps cp|name]|name|]; simpl; auto.
  - intros d0. apply dict_set_unique.
  - intros d0. apply dict_del_unique.
Qed.

Lemma keeps_nonempty c : named c -> keeps keys_nonempty c.
Proof.
  destruct c as [[|name d apps cp|name]|name|]; simpl; auto.
  - intros Hname d0. now apply dict_set_keys_all.
  - intros _ d0. apply dict_del_keys_all.
Qed.

Lemma default_presets_nonempty : keys_nonempty default_presets.
Proof.
  unfold keys_nonempty. rewrite default_presets_keys.
  repeat (constructor; [discriminate|]). constructor.
Qed.

Lemma defaulted_empty : defaulted ∅.
Proof. intros d. rewrite lookup_empty. discriminate. Qed.

(** C7, as written, fails: [add_preset] stores the empty name, so one call
    after the first run leaves the empty string among the keys. *)
Lemma store_keys_nonempty_unique_fails : ~ store_keys_nonempty_unique.
Proof.
  intros H.
  destruct (H ∅ [Store (Add "" "unnamed" ["Notes"] false)]) as [Hkeys _].
  - apply defaulted_empty.
  - unfold keys_nonempty in Hkeys. rewrite Forall_forall in Hkeys.
    apply (Hkeys ""); [|reflexivity].
    apply list_elem_of_In. vm_compute. auto 10.
Qed.

(** C7 (amended): in every state reached from the defaults by load, add,
    delete, switch and restart, the keys of the store are distinct; they
    are all non-empty as long as no [add_preset] was called with the empty
    name. *)
Theorem reachable_store_keys files cs :
  defaulted files ->
  let d := presets (self (execs cs (snd (start files)))) in
  keys_unique d /\ (Forall named cs -> keys_nonempty d).
Proof.
  intros Hfiles d. subst d. split.
  - destruct (execs_inv keys_unique cs (snd (start files)))
      as (_ & Huniq & _);
      [constructor | apply default_presets_unique | | | exact Huniq].
    + apply Forall_forall. intros c _. apply keeps_unique.
    + apply start_defaulted;
        [constructor | apply default_presets_unique | assumption].
  - intros Hcs.
    destruct (execs_inv keys_nonempty cs (snd (start files)))
      as (_ & Hkeys & _);
      [constructor | apply default_presets_nonempty | | | exact Hkeys].
    + eapply Forall_impl; [exact Hcs|]. apply keeps_nonempty.
    + apply start_defaulted;
        [constructor | apply default_presets_nonempty | assumption].
Qed.

Lemma reachable_store_keys_witness :
  let cs := [Store (Add "Study" "Reading" ["Books"; "Notes"] true);
             Store (Delete "Gaming"); Store Load; Switch "Study"; Restart;
             Store (Add "Work" "Office" ["Mail"] false)] in
  let d := presets (self (execs cs (snd (start ∅)))) in
  dict_keys d = ["Work"; "School"; "Relax"; "Study"] /\
  keys_unique d /\ keys_nonempty d.
Proof.
  intros cs d. split; [vm_compute; reflexivity|].
  destruct (reachable_store_keys ∅ cs) as [Huniq Hkeys].
  - apply defaulted_empty.
  - split; [exact Huniq|]. apply Hkeys.
    repeat (constructor; [simpl; try exact I; discriminate|]). constructor.
Defined.

(** *** The session pointer *)





(** *** The records of a reachable store *)

Lemma default_presets_built : records_built default_presets.
Proof.
  unfold records_built, default_presets.
  repeat (constructor; [simpl; eauto|]). constructor.
Qed.

Lemma keeps_built c : keeps records_built c.
Proof.
  destruct c as [[|name d apps cp|name]|name|]; simpl; auto.
  - intros d0 Hd0. apply dict_set_all; [simpl; eauto|assumption].
  - intros d0. apply dict_del_all.
Qed.

(** In a state reached from the defaults every key of the store can be
    switched to: its record has the keys [switch_to_preset] reads. *)
Lemma reachable_switch_completes files cs name :
  defaulted files ->
  let m := execs cs (snd (start files)) in
  In name (dict_keys (presets (self m))) ->
  exists m', switch_to_preset name m = (Ret true, m') /\
             current_preset (self m') = Some name.
Proof.
  intros Hfiles m Hname.
  assert (records_built []) as Hnil by (unfold records_built; constructor).
  assert (records_built (presets (self m))) as Hrecs.
  { destruct (execs_inv records_built cs (snd (start files)))
      as (_ & Hrecs & _);
      [assumption | apply default_presets_built | | | exact Hrecs].
    - apply Forall_forall. intros c _. apply keeps_built.
    - apply start_defaulted;
        [assumption | apply default_presets_built | assumption]. }
  apply dict_mem_keys, dict_mem_true in Hname as [v Hv].
  destruct (dict_get_all _ _ _ _ Hrecs Hv) as (k' & d & apps & cp & E).
  simpl in E. subst v.
  eexists. split.
  - apply (switch_known m name
             [("description", JStr d); ("apps", JArr (map JStr apps));
              ("close_previous", JBool cp)] apps (JStr d));
      [exact Hv|reflexivity..].
  - reflexivity.
Qed.

(* ===================================================================== *)
(** ** Further properties of the handler *)
(* ===================================================================== *)

(** *** Dictionaries, continued *)

Lemma dict_del_set_fresh {V : Type} (k : string) (v : V) d :
  dict_get k d = None -> dict_del k (dict_set k v d) = d.
Proof.
  induction d as [|[k0 v0] d IH]; simpl.
  - now rewrite String.eqb_refl.
  - destruct (String.eqb k k0) eqn:E; [discriminate|].
    intros H. simpl. rewrite E. now rewrite IH.
Qed.

Lemma dict_set_set {V : Type} (k : string) (v1 v2 : V) d :
  dict_set k v2 (dict_set k v1 d) = dict_set k v2 d.
Proof.
  induction d as [|[k0 v0] d IH]; simpl.
  - now rewrite String.eqb_refl.
  - destruct (String.eqb k k0) eqn:E; simpl.
    + now rewrite String.eqb_refl.
    + now rewrite E, IH.
Qed.

(** *** The file and the store *)

Lemma start_file files :
  presets_file (self (snd (start files))) = "presets.json".
Proof.
  unfold start. rewrite init_run. cbv zeta. rewrite load_presets_run. simpl.
  destruct (loadable (files !! "presets.json")); [reflexivity|].
  destruct (write_at (files !! "presets.json") default_presets); reflexivity.
Qed.

Lemma start_mirrored files :
  usable (files !! "presets.json") -> mirrored (snd (start files)).
Proof.
  intros H. apply usable_cases in H.
  unfold start. rewrite init_run. cbv zeta. rewrite load_presets_run. simpl.
  destruct H as [E|[E|[d E]]]; rewrite E; simpl;
    (split; [reflexivity|]); simpl;
    solve [apply lookup_insert_eq | exact E].
Qed.

Lemma exec_mirrored c m : mirrored m -> mirrored (exec c m).
Proof.
  intros (Hfile & Hdoc).
  destruct c as [[|name d apps cp|name]|name|]; unfold exec, exec_store.
  - rewrite load_presets_run, Hfile, Hdoc. simpl. now split.
  - rewrite add_preset_run. cbv zeta. rewrite Hfile, Hdoc. simpl.
    split; [assumption|apply lookup_insert_eq].
  - rewrite delete_preset_run.
    destruct (dict_mem name (presets (self m))); [|now split].
    cbv zeta. rewrite Hfile, Hdoc. simpl.
    split; [assumption|apply lookup_insert_eq].
  - destruct (switch_frame name m) as (Hfs & Hps & Hpf).
    unfold mirrored. now rewrite Hfs, Hps, Hpf.
  - rewrite init_run. cbv zeta. rewrite load_presets_run. simpl.
    rewrite Hdoc. simpl. now split.
Qed.

Lemma execs_mirrored cs m : mirrored m -> mirrored (execs cs m).
Proof.
  revert m. induction cs as [|c cs IH]; intros m Hm; [assumption|].
  rewrite execs_cons. apply IH. now apply exec_mirrored.
Qed.



(** X2: [load_presets] is idempotent: whatever the file was, a second call
    returns the same store and changes nothing. *)
Theorem load_presets_idempotent m :
  load_presets (snd (load_presets m)) = load_presets m.
Proof.
  rewrite (load_presets_run m).
  destruct (loadable (fs m !! presets_file (self m))) eqn:El.
  - simpl. now rewrite load_presets_run, El.
  - destruct (write_at_cases (fs m !! presets_file (self m)) default_presets)
      as [[E _]|[[E _]|[E _]]]; rewrite E; simpl.
    + rewrite load_presets_run. simpl. rewrite lookup_insert_eq. reflexivity.
    + rewrite load_presets_run. simpl. rewrite lookup_insert_eq. simpl.
      unfold with_fs. simpl. now rewrite insert_insert_eq.
    + now rewrite load_presets_run, El, E.
Qed.

(** X3: the file never lags behind the store, when the process started
    over a presets path it may use: one that is absent, or a regular file
    it may read and write, whatever its content.  Then in every state
    reached by any sequence of calls and restarts, "presets.json" holds
    exactly the store of the object.  Over a file the process may not
    read, or may not write, the two can differ. *)
Theorem file_mirrors_store files cs :
  usable (files !! "presets.json") ->
  let m := execs cs (snd (start files)) in
  fs m !! "presets.json" = Some (Doc (presets (self m))).
Proof.
  intros Hfiles m. subst m.
  destruct (execs_mirrored cs (snd (start files))) as [_ Hdoc];
    [now apply start_mirrored | exact Hdoc].
Qed.

Lemma file_mirrors_store_witness :
  let files : gmap string file := {["presets.json" := Garbage]} in
  let m := execs [Store (Add "Study" "Reading" ["Books"] true);
                  Store (Delete "Work"); Switch "Study"; Restart]
             (snd (start files)) in
  usable (files !! "presets.json") /\
  fs m !! "presets.json" = Some (Doc (presets (self m))).
Proof.
  intros files.
  assert (usable (files !! "presets.json")) as Hfiles
    by (intros d; reflexivity).
  split; [exact Hfiles|].
  exact (file_mirrors_store files _ Hfiles).
Defined.

(** X4: what the program stored survives a restart, when the process
    started over a presets path it may use (absent, or a regular file it
    may read and write): a new process over the files left behind has the
    same store, the same files and console, and no current preset. *)
Theorem restart_restores_store files cs :
  usable (files !! "presets.json") ->
  let m := execs cs (snd (start files)) in
  exec Restart m =
  {| self := {| presets_file := "presets.json";
                presets := presets (self m);
                current_preset := None |};
     fs := fs m;
     stdout := stdout m |}.
Proof.
  intros Hfiles m. subst m.
  destruct (execs_mirrored cs (snd (start files))
              (start_mirrored files Hfiles)) as [Hfile Hdoc].
  unfold exec. rewrite init_run. cbv zeta. rewrite load_presets_run. simpl.
  rewrite Hdoc. reflexivity.
Qed.

Lemma restart_restores_store_witness :
  let files : gmap string file := ∅ in
  let m := execs [Store (Add "Study" "Reading" ["Books"] true);
                  Switch "Study"; Store (Delete "Gaming")]
             (snd (start files)) in
  usable (files !! "presets.json") /\
  presets (self (exec Restart m)) = presets (self m) /\
  current_preset (self m) = Some "Study" /\
  current_preset (self (exec Restart m)) = None.
Proof.
  intros files.
  assert (usable (files !! "presets.json")) as Hfiles
    by (intros d; reflexivity).
  split; [exact Hfiles|].
  cbv zeta. rewrite (restart_restores_store files _ Hfiles).
  vm_compute. auto.
Defined.

Lemma exec_other_files c m p :
  presets_file (self m) = "presets.json" -> p <> "presets.json" ->
  presets_file (self (exec c m)) = "presets.json" /\
  fs (exec c m) !! p = fs m !! p.
Proof.
  intros Hfile Hp.
  destruct c as [[|name d apps cp|name]|name|]; unfold exec, exec_store.
  - rewrite load_presets_run, Hfile.
    destruct (loadable (fs m !! "presets.json")); [auto|].
    destruct (write_at (fs m !! "presets.json") default_presets); simpl;
      (split; [auto|]); try reflexivity;
      now apply lookup_insert_ne.
  - rewrite add_preset_run. cbv zeta. rewrite Hfile.
    destruct (write_at _ _); simpl; (split; [auto|]); try reflexivity;
      now apply lookup_insert_ne.
  - rewrite delete_preset_run.
    destruct (dict_mem name (presets (self m))); [|auto].
    cbv zeta. rewrite Hfile.
    destruct (write_at _ _); simpl; (split; [auto|]); try reflexivity;
      now apply lookup_insert_ne.
  - destruct (switch_frame name m) as (-> & _ & ->). auto.
  - rewrite init_run. cbv zeta. rewrite load_presets_run. simpl.
    destruct (loadable (fs m !! "presets.json")); [auto|].
    destruct (write_at (fs m !! "presets.json") default_presets); simpl;
      (split; [reflexivity|]); try reflexivity;
      now apply lookup_insert_ne.
Qed.

(** X5: the program writes no file but "presets.json": every other path
    is, after any sequence of calls and restarts, as it was when the
    process started. *)
Theorem writes_only_presets_file files cs p :
  p <> "presets.json" ->
  fs (execs cs (snd (start files))) !! p = files !! p.
Proof.
  intros Hp.
  assert (forall m, presets_file (self m) = "presets.json" ->
                    fs (execs cs m) !! p = fs m !! p) as Hexecs.
  { induction cs as [|c cs IH]; intros m Hfile; [reflexivity|].
    rewrite execs_cons.
    destruct (exec_other_files c m p Hfile Hp) as [Hfile' Hfs].
    now rewrite IH. }
  rewrite Hexecs by apply start_file.
  unfold start. rewrite init_run. cbv zeta. rewrite load_presets_run. simpl.
  destruct (loadable (files !! "presets.json")); [reflexivity|].
  destruct (write_at (files !! "presets.json") default_presets); simpl;
    try reflexivity; now apply lookup_insert_ne.
Qed.

Lemma writes_only_presets_file_witness :
  let files : gmap string file :=
    {["notes.json" := Doc hand_edited; "presets.json" := Garbage]} in
  fs (execs [Store (Add "Study" "Reading" ["Books"] true);
             Store (Delete "Work"); Switch "Study"; Restart]
        (snd (start files))) !! "notes.json" = Some (Doc hand_edited).
Proof.
  intros files.
  rewrite (writes_only_presets_file files _ "notes.json") by discriminate.
  vm_compute. reflexivity.
Defined.

(** *** The switch, continued *)

(** The second half either completes, having moved the pointer, or raises
    with the object as it was. *)
Lemma announce_self name preset m :
  (fst (announce name preset m) = Ret true /\
   self (snd (announce name preset m)) = with_current (Some name) (self m)) \/
  ((exists e, fst (announce name preset m) = Raise e) /\
   self (snd (announce name preset m)) = self m).
Proof.
  unfold announce. py_unfold.
  destruct preset as [| | | | |l|rec]; simpl;
    try (right; split; [eexists; reflexivity | reflexivity]).
  destruct (dict_get "apps" rec) as [x|]; simpl;
    [|right; split; [eexists; reflexivity | reflexivity]].
  destruct x as [| | | |s|l|kvs]; simpl;
    try (right; split; [eexists; reflexivity | reflexivity]);
    try (destruct (all_str l); simpl;
         [|right; split; [eexists; reflexivity | reflexivity]]);
    (destruct (dict_get "description" rec) as [x0|]; simpl;
     [left; split; reflexivity
     |right; split; [eexists; reflexivity | reflexivity]]).
Qed.

(** X6: the pointer moves only when a switch completes.  A switch that
    returns [True] leaves [current_preset] on the target; one that returns
    [False] or raises, at whatever point, leaves every attribute of the
    object as it was.  In no case are the store or the files changed. *)
Theorem switch_moves_pointer_only_on_success m name :
  let r := fst (switch_to_preset name m) in
  let m' := snd (switch_to_preset name m) in
  (r = Ret true -> current_preset (self m') = Some name) /\
  (r <> Ret true -> self m' = self m) /\
  presets (self m') = presets (self m) /\
  fs m' = fs m.
Proof.
  intros r m'. subst r m'.
  destruct (switch_frame name m) as (Hfs & Hps & _).
  split; [|split; [|auto]].
  - intros Hr.
    destruct (switch_to_preset name m) as [r m'] eqn:Hrun. simpl in Hr.
    subst r.
    now destruct (switch_success _ _ _ Hrun) as (rec & rest & _ & _ & _ & Hcur).
  - rewrite switch_to_preset_halves.
    destruct (dict_get name (presets (self m))) as [preset|]; [|reflexivity].
    unfold bind.
    destruct (close_step_frame (current_preset (self m)) preset m)
      as [[ls ->] | ->]; simpl; [|reflexivity].
    destruct (announce_self name preset
                {| self := self m; fs := fs m; stdout := ls |})
      as [[Hr _] | [_ Hself]]; [|intros _; exact Hself].
    intros Hne. now destruct Hne.
Qed.

(** X7: a record that lacks a key the body subscripts makes the switch
    raise [KeyError] midway.  Without ["apps"] the closing line, if any,
    and the switching line are already printed; without ["description"]
    the opening line is printed as well.  Either way the pointer, the
    store and the files stay as they were. *)
Theorem switch_missing_key m name rec :
  dict_get name (presets (self m)) = Some (JObj rec) ->
  (dict_get "apps" rec = None ->
   switch_to_preset name m =
   (Raise (KeyError "apps"),
    {| self := self m; fs := fs m;
       stdout := stdout m ++ closing_lines (current_preset (self m)) rec ++
                 [Switching name] |})) /\
  (forall apps,
     dict_get "apps" rec = Some (JArr (map JStr apps)) ->
     dict_get "description" rec = None ->
     switch_to_preset name m =
     (Raise (KeyError "description"),
      {| self := self m; fs := fs m;
         stdout := stdout m ++ closing_lines (current_preset (self m)) rec ++
                   [Switching name; Opening (String.concat ", " apps)] |})).
Proof.
  intros Hrec. split.
  - intros Happs. rewrite switch_to_preset_halves, Hrec.
    unfold bind at 1. rewrite close_step_object.
    unfold announce. py_unfold. simpl. rewrite Happs.
    simpl. rewrite <- ?app_assoc. reflexivity.
  - intros apps Happs Hdesc. rewrite switch_to_preset_halves, Hrec.
    unfold bind at 1. rewrite close_step_object.
    unfold announce. py_unfold. simpl.
    rewrite Happs. simpl. rewrite all_str_map, Hdesc. simpl.
    rewrite <- ?app_assoc. reflexivity.
Qed.

Lemma switch_missing_key_witness :
  switch_to_preset "X" without_apps =
  (Raise (KeyError "apps"),
   {| self := self without_apps; fs := fs without_apps;
      stdout := [Switching "Work";
                 Opening "Safari, Xcode, Terminal, Slack, Notes";
                 Description (JStr "Productivity and development workspace");
                 Closing "Work"; Switching "X"] |}).
Proof.
  destruct (switch_missing_key without_apps "X" [("description", JStr "d")]
              eq_refl) as [Happs _].
  rewrite Happs by reflexivity. vm_compute. reflexivity.
Defined.

(** X8: a record that is not a JSON object makes the switch raise.  With
    a truthy pointer it is [AttributeError] from [preset.get], before
    anything is printed; with a falsy pointer it is [TypeError] from
    [preset['apps']], after the switching line.  Nothing else changes. *)
Theorem switch_to_non_object m name v :
  dict_get name (presets (self m)) = Some v ->
  (forall rec, v <> JObj rec) ->
  switch_to_preset name m =
  if truthy_name (current_preset (self m))
  then (Raise AttributeError, m)
  else (Raise TypeError,
        {| self := self m; fs := fs m;
           stdout := stdout m ++ [Switching name] |}).
Proof. apply switch_not_object. Qed.

Lemma switch_to_non_object_witness :
  let files : gmap string file :=
    {["presets.json" := Doc [("Work", preset_record "w" ["Mail"] true);
                             ("Later", JNull)]]} in
  let m := snd (start files) in
  let m1 := snd (switch_to_preset "Work" m) in
  fst (switch_to_preset "Later" m) = Raise TypeError /\
  emitted m (snd (switch_to_preset "Later" m)) = [Switching "Later"] /\
  switch_to_preset "Later" m1 = (Raise AttributeError, m1).
Proof.
  intros files m m1. split; [|split].
  - rewrite (switch_to_non_object m "Later" JNull); [reflexivity..|discriminate].
  - rewrite (switch_to_non_object m "Later" JNull); [reflexivity..|discriminate].
  - rewrite (switch_to_non_object m1 "Later" JNull); [reflexivity..|discriminate].
Defined.

(** X9: the body does not compare the target with the pointer.  A switch
    to the preset that is already current, when its flag is absent or
    truthy, prints the closing line for that very preset and then opens
    it again. *)
Theorem switch_to_current_preset_closes_it m name rec apps description :
  dict_get name (presets (self m)) = Some (JObj rec) ->
  dict_get "apps" rec = Some (JArr (map JStr apps)) ->
  dict_get "description" rec = Some description ->
  flag_on_in rec ->
  name <> "" ->
  let m1 := snd (switch_to_preset name m) in
  switch_to_preset name m1 =
  (Ret true,
   {| self := self m1; fs := fs m1;
      stdout := stdout m1 ++
                [Closing name; Switching name;
                 Opening (String.concat ", " apps);
                 Description description] |}).
Proof.
  intros Hrec Happs Hdesc Hflag Hname m1.
  assert (current_preset (self m1) = Some name /\
          presets (self m1) = presets (self m)) as [Hcur1 Hps1].
  { subst m1. now rewrite (switch_known m name rec apps description). }
  rewrite (switch_known m1 name rec apps description);
    [|now rewrite Hps1|assumption..].
  rewrite Hcur1. unfold closing_lines. unfold flag_on_in in Hflag.
  destruct (String.eqb_spec name "") as [E|_]; [contradiction|]. simpl.
  replace (with_current (Some name) (self m1)) with (self m1)
    by (unfold with_current; rewrite <- Hcur1; now destruct (self m1)).
  destruct (dict_get "close_previous" rec) as [v|];
    [rewrite Hflag|]; reflexivity.
Qed.

Lemma switch_to_current_preset_closes_it_witness :
  let m1 := snd (switch_to_preset "Work" first_run) in
  emitted m1 (snd (switch_to_preset "Work" m1)) =
  [Closing "Work"; Switching "Work";
   Opening "Safari, Xcode, Terminal, Slack, Notes";
   Description (JStr "Productivity and development workspace")].
Proof.
  intros m1.
  assert (switch_to_preset "Work" m1 =
          (Ret true,
           {| self := self m1; fs := fs m1;
              stdout := stdout m1 ++
                [Closing "Work"; Switching "Work";
                 Opening "Safari, Xcode, Terminal, Slack, Notes";
                 Description (JStr "Productivity and development workspace")] |}))
    as ->.
  { apply (switch_to_current_preset_closes_it first_run "Work"
             [("description", JStr "Productivity and development workspace");
              ("apps", JArr (map JStr ["Safari"; "Xcode"; "Terminal";
                                       "Slack"; "Notes"]));
              ("close_previous", JBool true)]
             ["Safari"; "Xcode"; "Terminal"; "Slack"; "Notes"]
             (JStr "Productivity and development workspace"));
      [reflexivity|reflexivity|reflexivity|reflexivity|discriminate]. }
  apply emitted_app. reflexivity.
Defined.

(** X10: [delete_preset] does not look at the pointer.  After the current
    preset is deleted the pointer still names it, and the next switch to a
    flagged preset prints the closing line for a preset that is no longer
    in the store. *)
Theorem delete_leaves_pointer_dangling m current other rec apps description :
  current_preset (self m) = Some current ->
  current <> "" ->
  current <> other ->
  dict_get other (presets (self m)) = Some (JObj rec) ->
  dict_get "apps" rec = Some (JArr (map JStr apps)) ->
  dict_get "description" rec = Some description ->
  flag_on_in rec ->
  let m1 := snd (delete_preset current m) in
  current_preset (self m1) = Some current /\
  ~ In current (dict_keys (presets (self m1))) /\
  exists m2,
    switch_to_preset other m1 = (Ret true, m2) /\
    emitted m1 m2 =
      [Closing current; Switching other;
       Opening (String.concat ", " apps); Description description].
Proof.
  intros Hcur Hne Hother Hrec Happs Hdesc Hflag m1.
  assert (current_preset (self m1) = Some current /\
          dict_get current (presets (self m1)) = None /\
          dict_get other (presets (self m1)) = Some (JObj rec))
    as (Hcur1 & Hgone & Hrec1).
  { subst m1. rewrite delete_preset_run.
    destruct (dict_mem current (presets (self m))) eqn:E.
    - cbv zeta. destruct (write_at _ _); simpl;
        (split; [assumption|]); (split; [apply dict_get_del_eq|]);
        now rewrite dict_get_del_ne.
    - split; [assumption|]. split; [now apply dict_mem_false|assumption]. }
  split; [assumption|]. split.
  - intros Hin. apply dict_mem_keys, dict_mem_true in Hin as [v Hv]. congruence.
  - eexists. split.
    + apply (switch_known m1 other rec apps description); assumption.
    + apply emitted_app. simpl. rewrite Hcur1. unfold closing_lines.
      unfold flag_on_in in Hflag.
      destruct (String.eqb_spec current "") as [E|_]; [contradiction|]. simpl.
      destruct (dict_get "close_previous" rec) as [v|];
        [rewrite Hflag|]; reflexivity.
Qed.

Lemma delete_leaves_pointer_dangling_witness :
  let m := execs [Switch "Gaming"] first_run in
  let m1 := snd (delete_preset "Gaming" m) in
  dict_keys (presets (self m1)) = ["Work"; "School"; "Relax"] /\
  exists m2,
    switch_to_preset "Work" m1 = (Ret true, m2) /\
    emitted m1 m2 =
      [Closing "Gaming"; Switching "Work";
       Opening "Safari, Xcode, Terminal, Slack, Notes";
       Description (JStr "Productivity and development workspace")].
Proof.
  intros m m1. split; [vm_compute; reflexivity|].
  destruct (delete_leaves_pointer_dangling m "Gaming" "Work"
              [("description", JStr "Productivity and development workspace");
               ("apps", JArr (map JStr ["Safari"; "Xcode"; "Terminal";
                                        "Slack"; "Notes"]));
               ("close_previous", JBool true)]
              ["Safari"; "Xcode"; "Terminal"; "Slack"; "Notes"]
              (JStr "Productivity and development workspace"))
    as (_ & _ & Hswitch);
    [reflexivity|discriminate|discriminate|reflexivity|reflexivity
    |reflexivity|reflexivity|].
  exact Hswitch.
Defined.

(** *** The store, continued *)

(** X11: when the presets path is one the process may use (absent, or a
    regular file it may read and write), adding a preset under a name that
    is not in the store and then deleting it brings back the store, key
    order included, and the file holds that store again; [delete_preset]
    returns [True].  Where a save is refused the calls raise instead. *)
Theorem add_then_delete_fresh m name description apps close_previous :
  usable (fs m !! presets_file (self m)) ->
  ~ In name (dict_keys (presets (self m))) ->
  let m1 := snd (add_preset name description apps close_previous m) in
  exists m2,
    delete_preset name m1 = (Ret true, m2) /\
    self m2 = self m /\
    fs m2 !! presets_file (self m) = Some (Doc (presets (self m))) /\
    stdout m2 = stdout m.
Proof.
  intros Husable Hfresh m1. subst m1.
  assert (dict_get name (presets (self m)) = None) as Hnone.
  { apply dict_mem_false.
    destruct (dict_mem name (presets (self m))) eqn:E; [|reflexivity].
    destruct Hfresh. now apply dict_mem_keys. }
  rewrite add_preset_run. cbv zeta. rewrite Husable.
  rewrite delete_preset_run. simpl.
  unfold dict_mem. rewrite dict_get_set_eq. rewrite lookup_insert_eq. simpl.
  eexists. split; [reflexivity|]. simpl.
  rewrite dict_del_set_fresh by assumption.
  split; [now destruct (self m)|].
  split; [apply lookup_insert_eq|reflexivity].
Qed.

Lemma add_then_delete_fresh_witness :
  let m1 := snd (add_preset "Study" "Reading" ["Books"; "Notes"] true
                   first_run) in
  exists m2,
    delete_preset "Study" m1 = (Ret true, m2) /\
    self m2 = self first_run /\
    fs m2 !! "presets.json" = Some (Doc default_presets) /\
    stdout m2 = [].
Proof.
  intros m1.
  apply (add_then_delete_fresh first_run "Study" "Reading"
           ["Books"; "Notes"] true).
  - intros d. reflexivity.
  - vm_compute. intuition discriminate.
Defined.

(** X12: of two [add_preset] calls with the same name only the second
    shows: the object and the files are exactly as if the first call had
    not been made. *)
Theorem add_preset_twice m name description1 apps1 close1
    description2 apps2 close2 :
  add_preset name description2 apps2 close2
    (snd (add_preset name description1 apps1 close1 m)) =
  add_preset name description2 apps2 close2 m.
Proof.
  rewrite (add_preset_run name description1 apps1 close1 m). cbv zeta.
  destruct (fs m !! presets_file (self m)) as [[| |d0|w]|] eqn:E; simpl;
    rewrite !add_preset_run; cbv zeta; simpl;
    rewrite ?lookup_insert_eq, ?E; simpl;
    rewrite ?dict_set_set, ?insert_insert_eq; reflexivity.
Qed.

(** X21: a save the disk refuses (a read-only file, a directory) comes
    after the change of the store.  [add_preset] and [delete_preset] then
    raise [OSError] with the store in memory already changed and the file
    as it was, so the object and the file disagree. *)
Theorem refused_save_changes_store m w name description apps close_previous :
  fs m !! presets_file (self m) = Some (WriteProtected w) ->
  add_preset name description apps close_previous m =
    (Raise OSError,
     {| self := with_presets
                  (dict_set name
                     (preset_record description apps close_previous)
                     (presets (self m))) (self m);
        fs := fs m;
        stdout := stdout m |}) /\
  (In name (dict_keys (presets (self m))) ->
   delete_preset name m =
     (Raise OSError,
      {| self := with_presets (dict_del name (presets (self m))) (self m);
         fs := fs m;
         stdout := stdout m |})).
Proof.
  intros Hfs. split.
  - rewrite add_preset_run. cbv zeta. now rewrite Hfs.
  - intros Hin. rewrite delete_preset_run.
    rewrite (proj2 (dict_mem_keys name (presets (self m))) Hin).
    cbv zeta. now rewrite Hfs.
Qed.

Lemma refused_save_changes_store_witness :
  let m1 := snd (add_preset "Study" "Reading" ["Books"] true on_read_only) in
  fst (add_preset "Study" "Reading" ["Books"] true on_read_only)
    = Raise OSError /\
  dict_keys (presets (self m1)) =
    ["Work"; "School"; "Gaming"; "Relax"; "Study"] /\
  fs m1 !! "presets.json" = Some (WriteProtected (Parses default_presets)).
Proof.
  intros m1. subst m1.
  destruct (refused_save_changes_store on_read_only (Parses default_presets)
              "Study" "Reading" ["Books"] true) as [-> _];
    [reflexivity|].
  vm_compute. auto.
Defined.

Lemma exec_unreadable c m :
  presets_file (self m) = "presets.json" /\
  fs m !! "presets.json" = Some NoRead ->
  presets_file (self (exec c m)) = "presets.json" /\
  fs (exec c m) !! "presets.json" = Some NoRead.
Proof.
  intros (Hfile & Hfs).
  destruct c as [[|name d apps cp|name]|name|]; unfold exec, exec_store.
  - rewrite load_presets_run, Hfile, Hfs. simpl.
    split; [assumption|apply lookup_insert_eq].
  - rewrite add_preset_run. cbv zeta. rewrite Hfile, Hfs. simpl.
    split; [assumption|apply lookup_insert_eq].
  - rewrite delete_preset_run.
    destruct (dict_mem name (presets (self m))); [|now split].
    cbv zeta. rewrite Hfile, Hfs. simpl.
    split; [assumption|apply lookup_insert_eq].
  - destruct (switch_frame name m) as (-> & _ & ->). now split.
  - rewrite init_run. cbv zeta. rewrite load_presets_run. simpl.
    rewrite Hfs. simpl. split; [reflexivity|apply lookup_insert_eq].
Qed.

Lemma execs_unreadable cs m :
  presets_file (self m) = "presets.json" /\
  fs m !! "presets.json" = Some NoRead ->
  presets_file (self (execs cs m)) = "presets.json" /\
  fs (execs cs m) !! "presets.json" = Some NoRead.
Proof.
  revert m. induction cs as [|c cs IH]; intros m Hm; [assumption|].
  rewrite execs_cons. apply IH. now apply exec_unreadable.
Qed.

(** X22: over a presets file the process may write but not read, nothing
    is remembered.  The writes are accepted and the file stays unreadable,
    so whatever was added or deleted, a restart finds the default table
    again. *)
Theorem unreadable_file_forgets files cs :
  files !! "presets.json" = Some NoRead ->
  let m := exec Restart (execs cs (snd (start files))) in
  presets (self m) = default_presets /\
  current_preset (self m) = None /\
  fs m !! "presets.json" = Some NoRead.
Proof.
  intros Hfiles m. subst m.
  destruct (execs_unreadable cs (snd (start files))) as [Hfile Hfs].
  { split; [apply start_file|].
    unfold start. rewrite init_run. cbv zeta. rewrite load_presets_run. simpl.
    rewrite Hfiles. simpl. apply lookup_insert_eq. }
  unfold exec. rewrite init_run. cbv zeta. rewrite load_presets_run. simpl.
  rewrite Hfs. simpl. repeat split. apply lookup_insert_eq.
Qed.

Lemma unreadable_file_forgets_witness :
  let files : gmap string file := {["presets.json" := NoRead]} in
  let m := execs [Store (Add "Study" "Reading" ["Books"] true);
                  Store (Delete "Work")] (snd (start files)) in
  dict_keys (presets (self m)) = ["School"; "Gaming"; "Relax"; "Study"] /\
  presets (self (exec Restart m)) = default_presets.
Proof.
  intros files m. split; [vm_compute; reflexivity|].
  subst m.
  destruct (unreadable_file_forgets files
              [Store (Add "Study" "Reading" ["Books"] true);
               Store (Delete "Work")]) as (H & _); [reflexivity|exact H].
Defined.

(** X13: [', '.join] iterates whatever ["apps"] holds.  When the file has
    a string where the list of apps should be, the switch completes and
    the opening line lists the characters of that string one by one. *)
Theorem switch_apps_given_as_string m name rec s description :
  dict_get name (presets (self m)) = Some (JObj rec) ->
  dict_get "apps" rec = Some (JStr s) ->
  dict_get "description" rec = Some description ->
  switch_to_preset name m =
  (Ret true,
   {| self := with_current (Some name) (self m);
      fs := fs m;
      stdout := stdout m ++ closing_lines (current_preset (self m)) rec ++
                [Switching name; Opening (String.concat ", " (chars s));
                 Description description] |}).
Proof.
  intros Hrec Happs Hdesc. rewrite switch_to_preset_halves, Hrec.
  unfold bind at 1. rewrite close_step_object.
  unfold announce. py_unfold. simpl. rewrite Happs. simpl. rewrite Hdesc.
  simpl. rewrite <- ?app_assoc. reflexivity.
Qed.

Lemma switch_apps_given_as_string_witness :
  let files : gmap string file :=
    {["presets.json" :=
        Doc [("Mail", JObj [("description", JStr "letters");
                            ("apps", JStr "Mail")])]]} in
  emitted (snd (start files))
          (snd (switch_to_preset "Mail" (snd (start files)))) =
  [Switching "Mail"; Opening "M, a, i, l"; Description (JStr "letters")].
Proof.
  intros files.
  rewrite (switch_apps_given_as_string (snd (start files)) "Mail"
             [("description", JStr "letters"); ("apps", JStr "Mail")]
             "Mail" (JStr "letters")); reflexivity.
Defined.

(** X14: the program cannot break its own store.  In every state reached
    from the defaults by calls and restarts, a switch to any key of the
    store completes: it returns [True] and moves the pointer. *)
Theorem switch_completes_on_reachable_store files cs name :
  defaulted files ->
  let m := execs cs (snd (start files)) in
  In name (dict_keys (presets (self m))) ->
  exists m', switch_to_preset name m = (Ret true, m') /\
             current_preset (self m') = Some name.
Proof. apply reachable_switch_completes. Qed.

Lemma switch_completes_on_reachable_store_witness :
  let m := execs [Store (Add "" "unnamed" [] true); Store (Delete "Work");
                  Switch "Relax"; Restart] (snd (start ∅)) in
  exists m', switch_to_preset "" m = (Ret true, m') /\
             current_preset (self m') = Some "".
Proof.
  intros m.
  apply (switch_completes_on_reachable_store ∅
           [Store (Add "" "unnamed" [] true); Store (Delete "Work");
            Switch "Relax"; Restart] "").
  - intros d. rewrite lookup_empty. discriminate.
  - vm_compute. auto 10.
Defined.

(* ===================================================================== *)
(** ** The strings of the add dialog *)
(* ===================================================================== *)

Lemma rstrip_idem s : rstrip (rstrip s) = rstrip s.
Proof.
  induction s as [|c s IH]; simpl; [reflexivity|].
  destruct (rstrip s) as [|a r] eqn:E.
  - destruct (isspace c) eqn:Hc; simpl; [reflexivity|]. now rewrite Hc.
  - simpl in *. now rewrite IH.
Qed.

Lemma lstrip_idem s : lstrip (lstrip s) = lstrip s.
Proof.
  induction s as [|c s IH]; simpl; [reflexivity|].
  destruct (isspace c) eqn:Hc; [assumption|]. simpl. now rewrite Hc.
Qed.

(** Stripping the left end does not uncover whitespace at the right end. *)
Lemma rstrip_lstrip s : rstrip s = s -> rstrip (lstrip s) = lstrip s.
Proof.
  induction s as [|c s IH]; simpl; [reflexivity|].
  destruct (isspace c) eqn:Hc.
  - destruct (rstrip s) as [|a r] eqn:E; [discriminate|].
    intros H. injection H as H. apply IH. assumption.
  - simpl. rewrite Hc. intros H. exact H.
Qed.

Lemma strip_idem s : strip (strip s) = strip s.
Proof.
  unfold strip.
  rewrite (rstrip_lstrip (rstrip s)) by apply rstrip_idem.
  apply lstrip_idem.
Qed.

Lemma lstrip_length s : String.length (lstrip s) <= String.length s.
Proof.
  induction s as [|c s IH]; simpl; [lia|].
  destruct (isspace c); simpl; lia.
Qed.

Lemma rstrip_length s : String.length (rstrip s) <= String.length s.
Proof.
  induction s as [|c s IH]; simpl; [lia|].
  destruct (rstrip s) as [|a r]; [destruct (isspace c)|]; simpl in *; lia.
Qed.

Lemma lstrip_same_length s :
  String.length (lstrip s) = String.length s -> lstrip s = s.
Proof.
  destruct s as [|c s]; simpl; [reflexivity|].
  destruct (isspace c); [|reflexivity].
  pose proof (lstrip_length s). lia.
Qed.

Lemma rstrip_same_length s :
  String.length (rstrip s) = String.length s -> rstrip s = s.
Proof.
  induction s as [|c s IH]; simpl; [reflexivity|].
  pose proof (rstrip_length s) as Hlen.
  destruct (rstrip s) as [|a r] eqn:E.
  - destruct (isspace c); simpl; [lia|].
    intros H. destruct s; [reflexivity|simpl in H; lia].
  - simpl in *. intros H. rewrite IH by lia. reflexivity.
Qed.

(** A string that [strip] leaves alone has no whitespace at either end. *)
Lemma strip_fixed s : strip s = s -> lstrip s = s /\ rstrip s = s.
Proof.
  unfold strip. intros H.
  pose proof (lstrip_length (rstrip s)). pose proof (rstrip_length s).
  assert (rstrip s = s) as Hr by (apply rstrip_same_length; rewrite H in *; lia).
  rewrite Hr in H. auto.
Qed.

Lemma strip_leading_space c s :
  isspace c = true -> strip (String c s) = strip s.
Proof.
  unfold strip. intros Hc. simpl.
  destruct (rstrip s) as [|a r]; simpl; now rewrite Hc.
Qed.

Lemma split_nonempty sep s : split sep s <> [].
Proof.
  destruct s as [|c s]; simpl; [discriminate|].
  destruct (Ascii.eqb c sep); [discriminate|].
  destruct (split sep s); discriminate.
Qed.

Lemma split_free sep s :
  ~ In sep (list_ascii_of_string s) -> split sep s = [s].
Proof.
  induction s as [|c s IH]; simpl; [reflexivity|].
  intros Hnotin. destruct (Ascii.eqb_spec c sep) as [->|Hne]; [tauto|].
  rewrite IH by tauto. reflexivity.
Qed.

Lemma split_app sep s rest :
  ~ In sep (list_ascii_of_string s) ->
  split sep (s ++ String sep rest)%string = s :: split sep rest.
Proof.
  induction s as [|c s IH]; simpl.
  - intros _. now rewrite Ascii.eqb_refl.
  - intros Hnotin. destruct (Ascii.eqb_spec c sep) as [->|Hne]; [tauto|].
    rewrite IH by tauto. reflexivity.
Qed.

(** The apps the dialog passes on are non-empty and carry no whitespace at
    their ends. *)
Lemma parse_apps_clean apps_text :
  Forall (fun app => app <> "" /\ strip app = app) (parse_apps apps_text).
Proof.
  unfold parse_apps. apply Forall_forall. intros app Happ.
  apply list_elem_of_In, in_map_iff in Happ as (piece & <- & Hpiece).
  apply filter_In in Hpiece as [_ Hkeep].
  split; [|apply strip_idem].
  intros E. rewrite E in Hkeep. discriminate.
Qed.

Lemma parse_apps_leading_space apps_text :
  parse_apps (String " " apps_text) = parse_apps apps_text.
Proof.
  unfold parse_apps. simpl.
  destruct (split "," apps_text) as [|piece pieces] eqn:E;
    [now destruct (split_nonempty _ _ E)|].
  simpl. rewrite (strip_leading_space " " piece) by reflexivity.
  destruct (negb (strip piece =? "")%string); simpl; [|reflexivity].
  now rewrite (strip_leading_space " " piece).
Qed.

(** X15: the dialog reads back what the switch prints.  Apps that are
    non-empty, have no whitespace at their ends and hold no comma, joined
    with [", "] as in the opening line, are parsed by the dialog into the
    same list, in the same order. *)
Theorem parse_apps_of_joined apps :
  Forall (fun app => app <> "" /\ strip app = app /\
                     ~ In ","%char (list_ascii_of_string app)) apps ->
  parse_apps (String.concat ", " apps) = apps.
Proof.
  induction apps as [|a l IH]; [reflexivity|].
  intros Happs. apply Forall_cons in Happs as [(Hne & Hstrip & Hcomma) Hl].
  assert (negb (strip a =? "")%string = true) as Hkeep.
  { rewrite Hstrip. now destruct (String.eqb_spec a ""). }
  destruct l as [|b l].
  - simpl. unfold parse_apps. rewrite split_free by assumption.
    simpl. rewrite Hkeep. simpl. now rewrite Hstrip.
  - change (String.concat ", " (a :: b :: l))
      with (a ++ String "," (String " " (String.concat ", " (b :: l))))%string.
    pose proof (parse_apps_leading_space (String.concat ", " (b :: l))) as Hsp.
    rewrite (IH Hl) in Hsp.
    remember (String.concat ", " (b :: l)) as rest.
    unfold parse_apps in *. rewrite split_app by assumption.
    simpl. rewrite Hkeep. simpl. simpl in Hsp.
    now rewrite Hstrip, Hsp.
Qed.

Lemma parse_apps_of_joined_witness :
  parse_apps "Safari, Mail, Notes" = ["Safari"; "Mail"; "Notes"].
Proof.
  apply (parse_apps_of_joined ["Safari"; "Mail"; "Notes"]).
  repeat (constructor;
          [split; [discriminate|]; split; [reflexivity|];
           simpl; intuition discriminate|]).
  constructor.
Defined.

(* ===================================================================== *)
(** ** The window *)
(* ===================================================================== *)

Ltac ui_unfold :=
  unfold PresetHandlerGUI.ui_bind, PresetHandlerGUI.ui_ret,
    PresetHandlerGUI.handler_call, PresetHandlerGUI.widget,
    PresetHandlerGUI.configure, PresetHandlerGUI.try_except.

Lemma ui_bind_run {A B : Type} (c : PresetHandlerGUI.Ui A)
    (k : A -> PresetHandlerGUI.Ui B) s x s' :
  c s = (Ret x, s') -> PresetHandlerGUI.ui_bind c k s = k x s'.
Proof. unfold PresetHandlerGUI.ui_bind. now intros ->. Qed.

(** The display of a record that has the three keys the method reads. *)
Lemma update_info_display_shows a rec description apps items flag :
  preset_var (ui a) <> "" ->
  dict_get (preset_var (ui a)) (presets (self (core a))) = Some (JObj rec) ->
  dict_get "description" rec = Some description ->
  dict_get "apps" rec = Some apps ->
  (forall m, iterate apps m = (Ret items, m)) ->
  dict_get "close_previous" rec = Some flag ->
  PresetHandlerGUI.update_info_display a =
  (Ret tt,
   {| ui := PresetHandlerGUI.set_info_text
              {| shown_name := preset_var (ui a);
                 shown_description := description;
                 shown_apps := items;
                 shown_close := truthy flag |} (ui a);
      core := core a |}).
Proof.
  intros Hname Hrec Hdesc Happs Hitems Hflag.
  unfold PresetHandlerGUI.update_info_display, dict_mem. ui_unfold. py_unfold.
  simpl. destruct (String.eqb_spec (preset_var (ui a)) "") as [E|_];
    [contradiction|].
  rewrite Hrec. simpl. rewrite Hdesc, Happs. simpl.
  rewrite Hitems. rewrite Hflag. reflexivity.
Qed.

(** Either way a switch ends, the object is as before or the pointer is on
    the target. *)
Lemma switch_self_cases name m :
  current_preset (self (snd (switch_to_preset name m))) = Some name \/
  self (snd (switch_to_preset name m)) = self m.
Proof.
  rewrite switch_to_preset_halves.
  destruct (dict_get name (presets (self m))) as [preset|]; [|now right].
  unfold bind.
  destruct (close_step_frame (current_preset (self m)) preset m)
    as [[ls ->] | ->]; simpl; [|now right].
  destruct (announce_self name preset
              {| self := self m; fs := fs m; stdout := ls |})
    as [[_ Hself] | [_ Hself]]; rewrite Hself; [left|right]; reflexivity.
Qed.

(** X16: the dialog refuses blank fields.  When the name, the description
    or the apps text is empty or all whitespace, the warning is shown and
    nothing else happens: the handler is not called, the store, the file
    and the selection stay as they were, and the dialog stays open. *)
Theorem dialog_rejects_blank_fields a name_text desc_text apps_text close_var :
  strip name_text = "" \/ strip desc_text = "" \/ strip apps_text = "" ->
  PresetHandlerGUI.add_preset name_text desc_text apps_text close_var a =
  (Ret tt, {| ui := PresetHandlerGUI.show FillAllFields (ui a);
              core := core a |}).
Proof.
  intros Hblank. unfold PresetHandlerGUI.add_preset.
  assert (String.eqb (strip name_text) "" || String.eqb (strip desc_text) "" ||
          String.eqb (strip apps_text) "" = true) as ->; [|reflexivity].
  destruct Hblank as [-> | [-> | ->]]; simpl;
    rewrite ?orb_true_r; reflexivity.
Qed.

Lemma dialog_rejects_blank_fields_witness :
  let a := {| ui := {| preset_var := "Work"; combo_values := ["Work"];
                       info_text := None; status_var := "";
                       dialog_open := true; boxes := [] |};
              core := first_run |} in
  let a' := snd (PresetHandlerGUI.add_preset "Study" "Reading" "   "
                   true a) in
  core a' = first_run /\ boxes (ui a') = [FillAllFields] /\
  dialog_open (ui a') = true.
Proof.
  intros a a'. subst a'.
  rewrite (dialog_rejects_blank_fields a "Study" "Reading" "   " true);
    [repeat split|right; right; reflexivity].
Defined.

(** The run of the dialog's closure on fields that are not blank, by the
    outcome of the save inside the handler's [add_preset]. *)
Lemma dialog_add_run a name_text desc_text apps_text close_var :
  strip name_text <> "" ->
  strip desc_text <> "" ->
  strip apps_text <> "" ->
  let name := strip name_text in
  let description := strip desc_text in
  let apps := parse_apps (strip apps_text) in
  let d := dict_set name (preset_record description apps close_var)
             (presets (self (core a))) in
  PresetHandlerGUI.add_preset name_text desc_text apps_text close_var a =
  match write_at (fs (core a) !! presets_file (self (core a))) d with
  | Some f =>
      (Ret tt,
       {| ui := {| preset_var := name;
                   combo_values := combo_values (ui a);
                   info_text := Some {| shown_name := name;
                                        shown_description := JStr description;
                                        shown_apps := map JStr apps;
                                        shown_close := close_var |};
                   status_var := ("Added new preset: " ++ name)%string;
                   dialog_open := false;
                   boxes := boxes (ui a) ++ [Added name] |};
          core := {| self := with_presets d (self (core a));
                     fs := <[presets_file (self (core a)) := f]> (fs (core a));
                     stdout := stdout (core a) |} |})
  | None =>
      (Ret tt,
       {| ui := PresetHandlerGUI.show (AddFailed OSError) (ui a);
          core := {| self := with_presets d (self (core a));
                     fs := fs (core a);
                     stdout := stdout (core a) |} |})
  end.
Proof.
  intros Hname Hdesc Happs name description apps d.
  unfold PresetHandlerGUI.add_preset. fold name description apps.
  rewrite (proj2 (String.eqb_neq name "") Hname).
  rewrite (proj2 (String.eqb_neq description "") Hdesc).
  rewrite (proj2 (String.eqb_neq (strip apps_text) "") Happs).
  cbv beta iota delta [orb]. unfold PresetHandlerGUI.try_except.
  assert (PresetHandlerGUI.handler_call
            (add_preset name description apps close_var) a =
          match write_at (fs (core a) !! presets_file (self (core a))) d with
          | Some f =>
              (Ret tt,
               {| ui := ui a;
                  core := {| self := with_presets d (self (core a));
                             fs := <[presets_file (self (core a)) := f]>
                                     (fs (core a));
                             stdout := stdout (core a) |} |})
          | None =>
              (Raise OSError,
               {| ui := ui a;
                  core := {| self := with_presets d (self (core a));
                             fs := fs (core a);
                             stdout := stdout (core a) |} |})
          end) as Hcall.
  { unfold PresetHandlerGUI.handler_call. rewrite add_preset_run. cbv zeta.
    fold d. destruct (write_at _ d); reflexivity. }
  destruct (write_at (fs (core a) !! presets_file (self (core a))) d)
    as [f|] eqn:E.
  - erewrite ui_bind_run; [|exact Hcall].
    erewrite ui_bind_run; [|reflexivity].
    erewrite ui_bind_run;
      [|apply (update_info_display_shows _
                 [("description", JStr description);
                  ("apps", JArr (map JStr apps));
                  ("close_previous", JBool close_var)]
                 (JStr description) (JArr (map JStr apps)) (map JStr apps)
                 (JBool close_var));
        [assumption|simpl; apply dict_get_set_eq|reflexivity..]].
    reflexivity.
  - unfold PresetHandlerGUI.ui_bind at 1. rewrite Hcall. reflexivity.
Qed.

(** X17: what the dialog stores is clean.  When the three fields are not
    blank and the presets path takes a write, the handler's [add_preset]
    is called once, with the stripped name and description and the parsed
    apps: the name is non-empty and has no whitespace at its ends, and so
    has every app.  The new preset is then selected and displayed, the
    dialog closes, the status line and a message box report the addition;
    the list of the combobox is not extended.  When the write is refused
    the [except] branch runs instead. *)
Theorem dialog_stores_clean_fields a name_text desc_text apps_text close_var :
  strip name_text <> "" ->
  strip desc_text <> "" ->
  strip apps_text <> "" ->
  writable (fs (core a) !! presets_file (self (core a))) ->
  let name := strip name_text in
  let description := strip desc_text in
  let apps := parse_apps (strip apps_text) in
  let a' := snd (PresetHandlerGUI.add_preset name_text desc_text apps_text
                   close_var a) in
  fst (PresetHandlerGUI.add_preset name_text desc_text apps_text close_var a)
    = Ret tt /\
  core a' = snd (add_preset name description apps close_var (core a)) /\
  fst (add_preset name description apps close_var (core a)) = Ret tt /\
  (name <> "" /\ strip name = name) /\
  Forall (fun app => app <> "" /\ strip app = app) apps /\
  ui a' =
    {| preset_var := name;
       combo_values := combo_values (ui a);
       info_text := Some {| shown_name := name;
                            shown_description := JStr description;
                            shown_apps := map JStr apps;
                            shown_close := close_var |};
       status_var := ("Added new preset: " ++ name)%string;
       dialog_open := false;
       boxes := boxes (ui a) ++ [Added name] |}.
Proof.
  intros Hname Hdesc Happs Hw name description apps a'.
  pose proof (dialog_add_run a name_text desc_text apps_text close_var
                Hname Hdesc Happs) as Hrun.
  cbv zeta in Hrun. fold name description apps in Hrun.
  subst a'. rewrite Hrun. rewrite add_preset_run. cbv zeta.
  destruct (write_at _ _) as [f|] eqn:E; [|now apply Hw in E].
  simpl.
  split; [reflexivity|]. split; [reflexivity|]. split; [reflexivity|].
  split; [split; [assumption|apply strip_idem]|].
  split; [apply parse_apps_clean|reflexivity].
Qed.

Lemma dialog_stores_clean_fields_witness :
  let a := {| ui := {| preset_var := "Work"; combo_values := ["Work"];
                       info_text := None; status_var := "";
                       dialog_open := true; boxes := [] |};
              core := first_run |} in
  let a' := snd (PresetHandlerGUI.add_preset "  Study " "Reading "
                   " Books ,, Notes, " false a) in
  dict_get "Study" (presets (self (core a'))) =
    Some (preset_record "Reading" ["Books"; "Notes"] false) /\
  fs (core a') !! "presets.json" = Some (Doc (presets (self (core a')))) /\
  preset_var (ui a') = "Study" /\
  combo_values (ui a') = ["Work"].
Proof.
  intros a a'.
  destruct (dialog_stores_clean_fields a "  Study " "Reading "
              " Books ,, Notes, " false)
    as (_ & Hcore & _ & _ & _ & Hui);
    [discriminate|discriminate|discriminate|intros d; discriminate|].
  fold a' in Hcore, Hui. rewrite Hcore, Hui.
  repeat split; vm_compute; reflexivity.
Defined.

(** X18: the check on the apps field lets an empty list through.  A text
    made of commas and whitespace only, with at least one comma, is not
    blank, so the dialog hands the preset to the handler, which stores it
    with no apps at all; the message box that follows reports the addition
    when the save was accepted and the error when it was refused. *)
Theorem dialog_accepts_commas_only a name_text desc_text apps_text close_var :
  strip name_text <> "" ->
  strip desc_text <> "" ->
  strip apps_text <> "" ->
  (forall piece, In piece (split ","%char (strip apps_text)) ->
                 strip piece = "") ->
  let a' := snd (PresetHandlerGUI.add_preset name_text desc_text apps_text
                   close_var a) in
  dict_get (strip name_text) (presets (self (core a'))) =
    Some (JObj [("description", JStr (strip desc_text));
                ("apps", JArr []);
                ("close_previous", JBool close_var)]) /\
  boxes (ui a') =
    boxes (ui a) ++
    [match write_at (fs (core a) !! presets_file (self (core a)))
             (presets (self (core a'))) with
     | Some _ => Added (strip name_text)
     | None => AddFailed OSError
     end].
Proof.
  intros Hname Hdesc Happs Hpieces a'. subst a'.
  rewrite (dialog_add_run a name_text desc_text apps_text close_var)
    by assumption.
  assert (parse_apps (strip apps_text) = []) as ->.
  { unfold parse_apps.
    induction (split ","%char (strip apps_text)) as [|piece pieces IH];
      [reflexivity|].
    simpl. rewrite (Hpieces piece) by (left; reflexivity). simpl.
    apply IH. intros p Hp. apply Hpieces. now right. }
  cbv zeta.
  destruct (write_at _ _) as [f|] eqn:E; simpl; rewrite E;
    (split; [apply dict_get_set_eq|reflexivity]).
Qed.

Lemma dialog_accepts_commas_only_witness :
  let a := {| ui := {| preset_var := ""; combo_values := [];
                       info_text := None; status_var := "";
                       dialog_open := true; boxes := [] |};
              core := first_run |} in
  let a' := snd (PresetHandlerGUI.add_preset "Idle" "Nothing to open" " , ,"
                   true a) in
  dict_get "Idle" (presets (self (core a'))) =
    Some (JObj [("description", JStr "Nothing to open");
                ("apps", JArr []);
                ("close_previous", JBool true)]) /\
  boxes (ui a') = [Added "Idle"].
Proof.
  intros a a'.
  destruct (dialog_accepts_commas_only a "Idle" "Nothing to open" " , ," true)
    as [Hrec Hboxes]; try discriminate.
  { vm_compute. intuition (subst; reflexivity). }
  fold a' in Hrec, Hboxes. split; [exact Hrec|].
  rewrite Hboxes. vm_compute. reflexivity.
Defined.

(** X23: the dialog when the save is refused.  With fields that are not
    blank over a presets path that takes no write, the handler raises, the
    [except] branch shows the error box, and everything else in the window
    is as before: the dialog stays open, the selection, the display and
    the status line are not touched.  The closure returns normally.  The
    store in memory nevertheless holds the new preset, and the file does
    not. *)
Theorem dialog_reports_refused_save a w name_text desc_text apps_text
    close_var :
  strip name_text <> "" ->
  strip desc_text <> "" ->
  strip apps_text <> "" ->
  fs (core a) !! presets_file (self (core a)) = Some (WriteProtected w) ->
  let a' := snd (PresetHandlerGUI.add_preset name_text desc_text apps_text
                   close_var a) in
  fst (PresetHandlerGUI.add_preset name_text desc_text apps_text close_var a)
    = Ret tt /\
  ui a' = PresetHandlerGUI.show (AddFailed OSError) (ui a) /\
  fs (core a') = fs (core a) /\
  stdout (core a') = stdout (core a) /\
  dict_get (strip name_text) (presets (self (core a'))) =
    Some (preset_record (strip desc_text) (parse_apps (strip apps_text))
            close_var).
Proof.
  intros Hname Hdesc Happs Hfs a'. subst a'.
  rewrite (dialog_add_run a name_text desc_text apps_text close_var)
    by assumption.
  cbv zeta. rewrite Hfs. simpl.
  repeat split. apply dict_get_set_eq.
Qed.

Lemma dialog_reports_refused_save_witness :
  let a := {| ui := {| preset_var := "Work"; combo_values := ["Work"];
                       info_text := None; status_var := "Ready";
                       dialog_open := true; boxes := [] |};
              core := on_read_only |} in
  let a' := snd (PresetHandlerGUI.add_preset "Study" "Reading" "Books"
                   true a) in
  boxes (ui a') = [AddFailed OSError] /\
  dialog_open (ui a') = true /\
  preset_var (ui a') = "Work" /\
  status_var (ui a') = "Ready" /\
  fs (core a') !! "presets.json" =
    Some (WriteProtected (Parses default_presets)).
Proof.
  intros a a'.
  destruct (dialog_reports_refused_save a (Parses default_presets)
              "Study" "Reading" "Books" true)
    as (_ & Hui & Hfs & _);
    [discriminate|discriminate|discriminate|reflexivity|].
  fold a' in Hui, Hfs. rewrite Hui, Hfs.
  vm_compute. auto.
Defined.

(** The run of the switch button. *)
Lemma switch_preset_run a :
  PresetHandlerGUI.switch_preset a =
  if String.eqb (preset_var (ui a)) ""
  then (Ret tt, {| ui := PresetHandlerGUI.show SelectFirst (ui a);
                   core := core a |})
  else
    match switch_to_preset (preset_var (ui a)) (core a) with
    | (Ret true, m') =>
        (Ret tt,
         {| ui := PresetHandlerGUI.show (Switched (preset_var (ui a)))
                    (PresetHandlerGUI.set_status_var
                       ("Switched to " ++ preset_var (ui a) ++
                        " preset successfully!")%string (ui a));
            core := m' |})
    | (Ret false, m') =>
        (Ret tt,
         {| ui := PresetHandlerGUI.show SwitchFailed
                    (PresetHandlerGUI.set_status_var "Failed to switch preset"
                       (ui a));
            core := m' |})
    | (Raise e, m') => (Raise e, {| ui := ui a; core := m' |})
    end.
Proof.
  unfold PresetHandlerGUI.switch_preset. ui_unfold.
  destruct (String.eqb (preset_var (ui a)) ""); [reflexivity|].
  destruct (switch_to_preset (preset_var (ui a)) (core a)) as [[[|]|e] m'];
    reflexivity.
Qed.

(** X19: the switch button never hands the empty name to the handler.
    With nothing selected it only shows the warning; otherwise it calls
    [switch_to_preset] on the selection.  So a click cannot put the empty
    name in [current_preset], and it leaves the store and the files as they
    were. *)
Theorem switch_button_keeps_pointer_named a :
  let a' := snd (PresetHandlerGUI.switch_preset a) in
  (preset_var (ui a) = "" ->
   PresetHandlerGUI.switch_preset a =
   (Ret tt, {| ui := PresetHandlerGUI.show SelectFirst (ui a);
               core := core a |})) /\
  (current_preset (self (core a')) = Some "" ->
   current_preset (self (core a)) = Some "") /\
  presets (self (core a')) = presets (self (core a)) /\
  fs (core a') = fs (core a).
Proof.
  intros a'. subst a'. rewrite switch_preset_run.
  destruct (String.eqb_spec (preset_var (ui a)) "") as [E|Hsel].
  - split; [reflexivity|]. simpl. auto.
  - split; [contradiction|].
    destruct (switch_frame (preset_var (ui a)) (core a)) as (Hfs & Hps & _).
    destruct (switch_self_cases (preset_var (ui a)) (core a)) as [Hcur|Hself];
      destruct (switch_to_preset (preset_var (ui a)) (core a))
        as [[[|]|e] m'] eqn:Hrun; simpl in *;
      (split; [intros E; congruence|auto]).
Qed.

(** X20: the display is stricter than the switch.  A record that has its
    description and apps and no ["close_previous"] key can be switched
    to, the flag counting as true, while [update_info_display] raises
    [KeyError] on it and leaves the text widget as it was. *)
Theorem display_needs_flag_switch_does_not a rec description apps :
  preset_var (ui a) <> "" ->
  dict_get (preset_var (ui a)) (presets (self (core a))) = Some (JObj rec) ->
  dict_get "description" rec = Some description ->
  dict_get "apps" rec = Some (JArr (map JStr apps)) ->
  dict_get "close_previous" rec = None ->
  PresetHandlerGUI.update_info_display a =
    (Raise (KeyError "close_previous"), a) /\
  fst (switch_to_preset (preset_var (ui a)) (core a)) = Ret true.
Proof.
  intros Hname Hrec Hdesc Happs Hflag. split.
  - unfold PresetHandlerGUI.update_info_display, dict_mem. ui_unfold.
    py_unfold. simpl.
    destruct (String.eqb_spec (preset_var (ui a)) "") as [E|_];
      [contradiction|].
    rewrite Hrec. simpl. rewrite Hdesc, Happs. simpl. rewrite Hflag.
    now destruct a.
  - now rewrite (switch_known _ _ rec apps description).
Qed.

Lemma display_needs_flag_switch_does_not_witness :
  let a := {| ui := {| preset_var := "B"; combo_values := ["A"; "B"];
                       info_text := None; status_var := "";
                       dialog_open := false; boxes := [] |};
              core := on_A |} in
  PresetHandlerGUI.update_info_display a =
    (Raise (KeyError "close_previous"), a) /\
  fst (switch_to_preset "B" on_A) = Ret true.
Proof.
  intros a.
  apply (display_needs_flag_switch_does_not a
           [("description", JStr "second");
            ("apps", JArr [JStr "Mail"; JStr "Notes"])]
           (JStr "second") ["Mail"; "Notes"]);
    [discriminate|reflexivity..].
Defined.
